(** * nitime.timeseries: time axes, time series and analyzers

    A shallow embedding of [nitime/timeseries.py].

    Conventions of the embedding.
    - Python floats are idealised as exact rationals ([Q]); [np.int64]
      values are integers ([Z]) with the two's-complement wrap-around
      written out ([wrap64]).
    - A Python exception is a value of [exn]; a call that may raise returns
      a [result].
    - Objects that are shared by reference (the [method] dict of the
      analyzers) live in an explicit heap of dicts, addressed by location.
    - Primitives of numpy and of the sibling modules [nitime.utils] and
      [nitime.algorithms] that the analyzers only call (the FFT, the
      pairwise estimators, the phase-angle primitive) are Section variables
      of the analyzers that use them. *)

From Stdlib Require Import ZArith QArith Qround Qabs Lia Lqa.
From stdpp Require Import gmap strings list.

(* ===================================================================== *)
(** ** Python exceptions and results *)
(* ===================================================================== *)

Inductive exn : Type :=
  | ValueError (msg : string)
  | NameError (name : string)
  | KeyError (key : string)
  | IndexError
  | TypeError
  | ZeroDivisionError
  | NotImplementedError.

Inductive result (A : Type) : Type :=
  | Ok (a : A)
  | Raise (e : exn).
Arguments Ok {A} a.
Arguments Raise {A} e.

#[global] Instance result_ret : MRet result := fun A a => Ok a.
#[global] Instance result_bind : MBind result := fun A B k m =>
  match m with
  | Ok a => k a
  | Raise e => Raise e
  end.

Definition is_Ok {A} (r : result A) : Prop := exists a, r = Ok a.

(* ===================================================================== *)
(** ** Module globals: the unit table *)
(* ===================================================================== *)

Open Scope Z_scope.

(** [time_unit_conversion]: the dict of the module, in source order. A key
    is a unit name or Python's [None] (the default, seconds). *)
Definition time_unit_conversion : list (option string * Z) :=
  [ (Some "ps"%string, 1);
    (Some "ns"%string, 10^3);
    (Some "us"%string, 10^6);
    (Some "ms"%string, 10^9);
    (Some "s"%string, 10^12);
    (None, 10^12);
    (Some "m"%string, 60 * 10^12);
    (Some "h"%string, 3600 * 10^12);
    (Some "D"%string, 24 * 3600 * 10^12);
    (Some "W"%string, 7 * 24 * 3600 * 10^12) ].

Definition option_string_eqb (a b : option string) : bool :=
  match a, b with
  | None, None => true
  | Some x, Some y => String.eqb x y
  | _, _ => false
  end.

(** [d[k]] on an association list: the first binding of [k]. *)
Fixpoint assoc_get {V} (k : option string) (d : list (option string * V)) : option V :=
  match d with
  | [] => None
  | (k', v) :: d' => if option_string_eqb k k' then Some v else assoc_get k d'
  end.

(** [time_unit in time_unit_conversion] *)
Definition valid_time_unit (u : option string) : bool :=
  match assoc_get u time_unit_conversion with Some _ => true | None => false end.

Definition key_repr (u : option string) : string :=
  match u with Some s => s | None => "None"%string end.

(** [tuc[u]], raising [KeyError] on a unit that is not in the table. *)
Definition tuc (u : option string) : result Z :=
  match assoc_get u time_unit_conversion with
  | Some c => Ok c
  | None => Raise (KeyError (key_repr u))
  end.

Definition base_unit : string := "ps".

(* ===================================================================== *)
(** ** Numeric primitives *)
(* ===================================================================== *)

(** Two's-complement wrap-around of a 64-bit signed integer. *)
Definition wrap64 (z : Z) : Z := (z + 2^63) mod 2^64 - 2^63.

Definition int64_min : Z := - 2^63.
Definition int64_max : Z := 2^63 - 1.

(** C cast of a float to an integer: truncation toward zero. *)
Definition Qtrunc (q : Q) : Z := Z.quot (Qnum q) (Zpos (Qden q)).

(** [np.int64(x)] for a float [x]. *)
Definition np_int64_of_float (q : Q) : Z := wrap64 (Qtrunc q).

(** [ndarray.round()]: round half to even. *)
Definition np_round (q : Q) : Z :=
  let f := Qfloor q in
  match ((q - inject_Z f) ?= (1 # 2))%Q with
  | Lt => f
  | Gt => f + 1
  | Eq => if Z.even f then f else f + 1
  end.


(* ===================================================================== *)
(** ** Frequency *)
(* ===================================================================== *)

(** [class Frequency(float)]: the value in Hz and the [_time_unit]
    attribute. *)
Record Frequency : Type := mkFrequency {
  hz : Q;
  _time_unit : option string
}.

(** The argument [f] of [Frequency.__new__]: a plain number or a
    [Frequency]. *)
Inductive rate_arg : Type :=
  | RateNum (q : Q)
  | RateFreq (f : Frequency).

(** [Frequency.__new__(cls, f, time_unit='s')] *)
Definition Frequency_new (f : rate_arg) (time_unit : option string) : result Frequency :=
  s ← tuc (Some "s"%string);
  u ← tuc time_unit;
  let scale_factor := (inject_Z s / inject_Z u)%Q in
  let f' := match f with
            | RateFreq fr => hz fr
            | RateNum q => (q * scale_factor)%Q
            end in
  mret (mkFrequency f' time_unit).

(** [Frequency.to_period(self, time_unit)] *)
Definition Frequency_to_period (self : Frequency) (time_unit : option string) : result Z :=
  s ← tuc (Some "s"%string);
  u ← tuc time_unit;
  let scale_factor := (inject_Z s / inject_Z u)%Q in
  if Qeq_bool (hz self) 0 then Raise ZeroDivisionError
  else mret (np_int64_of_float ((1 / hz self) * scale_factor)%Q).

(** [self.to_period()]: the default argument [time_unit=base_unit]. *)
Definition Frequency_to_period_default (self : Frequency) : result Z :=
  Frequency_to_period self (Some base_unit).

(* ===================================================================== *)
(** ** TimeArray (zero-dimensional) *)
(* ===================================================================== *)

(** A [TimeArray] of shape [()], as [UniformTime.__new__] builds them for
    [duration], [t0] and [sampling_interval]: one int64 tick count at base
    resolution, the display unit and the conversion factor. *)
Record TimeArray : Type := mkTimeArray {
  tick : Z;
  ta_time_unit : string;
  ta_conversion_factor : Z
}.

(** What [TimeArray.__new__] is given as [data]: a Python number, a numpy
    scalar of dtype int64, or a [TimeArray]. *)
Inductive time_data : Type :=
  | Num (q : Q)
  | Int64 (z : Z)
  | TArr (t : TimeArray).

Definition invalid_time_unit_msg : string := "Invalid time unit".

(** [TimeArray.__new__(cls, data, time_unit=None, copy=False)] *)
Definition TimeArray_new (data : time_data) (time_unit : option string)
    (copy : bool) : result TimeArray :=
  if negb (valid_time_unit time_unit) then Raise (ValueError invalid_time_unit_msg)
  else
    conv_fac ← tuc time_unit;
    let time :=
      match data with
      | Int64 z => if copy then wrap64 (z * conv_fac) else z
      | TArr t => tick t
      | Num q => wrap64 (np_round (q * inject_Z conv_fac)%Q)
      end in
    let time_unit1 :=
      match time_unit, data with
      | None, TArr t => Some (ta_time_unit t)
      | _, _ => time_unit
      end in
    let time_unit2 := match time_unit1 with Some u => u | None => "s"%string end in
    mret (mkTimeArray time time_unit2 conv_fac).

(* ===================================================================== *)
(** ** UniformTime *)
(* ===================================================================== *)

Record UniformTime : Type := mkUniformTime {
  ut_ticks : list Z;
  ut_time_unit : string;
  ut_conversion_factor : Z;
  ut_duration : TimeArray;
  ut_sampling_rate : Frequency;
  ut_sampling_interval : TimeArray;
  ut_t0 : TimeArray
}.

(** [x is not None] *)
Definition is_not_None {A} (x : option A) : bool :=
  match x with Some _ => true | None => false end.

Definition tspec4 : Type := bool * bool * bool * bool.

Definition tspec4_eqb (a b : tspec4) : bool :=
  match a, b with
  | (a1, a2, a3, a4), (b1, b2, b3, b4) =>
      Bool.eqb a1 b1 && Bool.eqb a2 b2 && Bool.eqb a3 b3 && Bool.eqb a4 b4
  end.

(** The valid configurations of (interval, rate, length, duration). *)
Definition valid_tspecs : list tspec4 :=
  [ (true, false, true, false);
    (true, false, false, true);
    (false, true, true, false);
    (false, true, false, true);
    (false, false, true, true) ].

(** [np.arange(start, stop, step, dtype=np.int64)] *)
Definition np_arange (start stop step : Z) : result (list Z) :=
  if step =? 0 then Raise ZeroDivisionError
  else
    let n := Z.to_nat (- ((- (stop - start)) / step)) in
    mret (map (fun k => start + Z.of_nat k * step) (seq 0 n)).

(** [float(x)] of a number or a zero-dimensional array. *)
Definition py_float (x : time_data) : Q :=
  match x with
  | Num q => q
  | Int64 z => inject_Z z
  | TArr t => inject_Z (tick t)
  end.

(** [length * sampling_interval] *)
Definition py_mul_int (n : Z) (x : time_data) : time_data :=
  match x with
  | Num q => Num (inject_Z n * q)%Q
  | Int64 z => Int64 (wrap64 (n * z))
  | TArr t => TArr (mkTimeArray (wrap64 (n * tick t)) (ta_time_unit t) (ta_conversion_factor t))
  end.

(** [1.0 / x], raising on a zero divisor. *)
Definition py_inv (q : Q) : result Q :=
  if Qeq_bool q 0 then Raise ZeroDivisionError else Ok (1 / q)%Q.

Definition invalid_time_specification_msg : string := "Invalid time specification".
Definition too_short_msg : string :=
  "length/duration too short for the sampling_interval/sampling_rate".

(** [UniformTime.__new__(cls, data=None, length=None, duration=None,
    sampling_rate=None, sampling_interval=None, t0=0, time_unit=None)],
    for a call without [data] (no [isinstance(data, UniformTime)] branch is
    taken). *)
Definition UniformTime_new (length : option Z) (duration : option time_data)
    (sampling_rate : option rate_arg) (sampling_interval : option Q)
    (t0 : Q) (time_unit : option string) : result UniformTime :=
  let tspec : tspec4 :=
    (is_not_None sampling_interval, is_not_None sampling_rate,
     is_not_None length, is_not_None duration) in
  if negb (existsb (tspec4_eqb tspec) valid_tspecs)
  then Raise (ValueError invalid_time_specification_msg)
  else if negb (valid_time_unit time_unit)
  then Raise (ValueError invalid_time_unit_msg)
  else
    (* Calculate the sampling_interval or sampling_rate *)
    '(sampling_interval, sampling_rate) ←
      match sampling_interval with
      | None =>
          match sampling_rate with
          | Some (RateFreq f) =>
              p ← Frequency_to_period_default f;
              mret (Int64 p, RateFreq f)
          | None =>
              match duration, length with
              | Some d, Some n =>
                  si ← (if n =? 0 then Raise ZeroDivisionError
                        else Ok (py_float d / inject_Z n)%Q);
                  r ← py_inv si;
                  f ← Frequency_new (RateNum r) time_unit;
                  mret (Num si, RateFreq f)
              | _, _ => Raise TypeError
              end
          | Some (RateNum r) =>
              f ← Frequency_new (RateNum r) (Some "s"%string);
              p ← Frequency_to_period_default f;
              mret (Int64 p, RateFreq f)
          end
      | Some si =>
          r ← py_inv si;
          f ← Frequency_new (RateNum r) (Some "s"%string);
          mret (Num si, RateFreq f)
      end;
    (* Calculate the duration, if that is not defined *)
    duration ←
      match duration with
      | Some d => Ok d
      | None =>
          match length with
          | Some n => Ok (py_mul_int n sampling_interval)
          | None => Raise TypeError
          end
      end;
    (* Make sure you have a time unit *)
    let time_unit :=
      match time_unit with
      | Some u => u
      | None => match duration with TArr d => ta_time_unit d | _ => "s"%string end
      end in
    (* 'cast' the time inputs as TimeArray *)
    duration ← TimeArray_new duration (Some time_unit) false;
    t0 ← TimeArray_new (Num t0) (Some time_unit) false;
    sampling_interval ← TimeArray_new sampling_interval (Some time_unit) false;
    if tick duration <? tick sampling_interval
    then Raise (ValueError too_short_msg)
    else
      time ← np_arange (tick t0) (wrap64 (tick t0 + tick duration))
                       (tick sampling_interval);
      conv ← tuc (Some time_unit);
      sr ← Frequency_new sampling_rate (Some "s"%string);
      mret (mkUniformTime time time_unit conv duration sr sampling_interval t0).

(* ===================================================================== *)
(** ** Arrays and time series *)
(* ===================================================================== *)

Close Scope Z_scope.

(** An [ndarray]: its shape and its entries in row-major order. *)
Record ndarray : Type := mk_ndarray {
  shape : list nat;
  flat : list Q
}.

Definition ndim (a : ndarray) : nat := length (shape a).

(** [a.shape[-1]] *)
Definition shape_last (a : ndarray) : result nat :=
  match last (shape a) with
  | Some d => Ok d
  | None => Raise IndexError
  end.

(** [a.shape[0]] *)
Definition shape_first (a : ndarray) : result nat :=
  match shape a with
  | d :: _ => Ok d
  | [] => Raise IndexError
  end.

(** [len(a)]: the first dimension; a zero-dimensional array has none. *)
Definition py_len (a : ndarray) : result nat :=
  match shape a with
  | d :: _ => Ok d
  | [] => Raise TypeError
  end.

(** Values stored in dicts and attributes. *)
Inductive pyval : Type :=
  | VStr (s : string)
  | VNum (q : Q)
  | VFreq (f : Frequency).

(** A time series as [TimeSeriesBase.__init__] and
    [NonUniformTimeSeries.__init__] leave it. *)
Record NonUniformTimeSeries : Type := mkNonUniformTimeSeries {
  nts_data : ndarray;
  nts_time_unit : option string;
  nts_metadata : gmap string pyval;
  nts_time : ndarray
}.

(** [TimeSeriesBase.__init__(self, data, time_unit)]: the attributes
    [data], [time_unit] and [metadata] it sets. *)
Definition TimeSeriesBase_init (data : ndarray) (time_unit : option string)
    : result (ndarray * option string * gmap string pyval) :=
  if negb (valid_time_unit time_unit) then Raise (ValueError invalid_time_unit_msg)
  else mret (data, time_unit, ∅).

(** [NonUniformTimeSeries.__init__(self, data, time, time_unit='s')] *)
Definition NonUniformTimeSeries_init (data time : ndarray)
    (time_unit : option string) : result NonUniformTimeSeries :=
  '(d, u, md) ← TimeSeriesBase_init data time_unit;
  mret (mkNonUniformTimeSeries d u md time).

Definition time_not_1d_msg : string := "time array must be one-dimensional".
Definition mismatch_msg : string := "mismatch of time and data dimensions".

(** [TimeSeriesBase._validate_dimensionality(self)] *)
Definition _validate_dimensionality (self : NonUniformTimeSeries) : result unit :=
  if negb (ndim (nts_time self) =? 1) then Raise (ValueError time_not_1d_msg)
  else
    npoints ← shape_last (nts_data self);
    len_time ← py_len (nts_time self);
    if negb (npoints =? len_time) then Raise (ValueError mismatch_msg)
    else mret tt.

(** The invariant of the data model: [time] is one-dimensional and
    [data.shape[-1] == len(time)]. *)
Definition dimensions_agree (ts : NonUniformTimeSeries) : Prop :=
  exists n, shape (nts_time ts) = [n] /\ last (shape (nts_data ts)) = Some n.

(* ===================================================================== *)
(** ** State: a small state-and-exception monad *)
(* ===================================================================== *)

(** A computation over a mutable store [S] that returns or raises; the
    store survives an exception, as Python's heap does. *)
Definition stM (S A : Type) : Type := S -> result A * S.

#[global] Instance stM_ret {S} : MRet (stM S) := fun A a s => (Ok a, s).
#[global] Instance stM_bind {S} : MBind (stM S) := fun A B k m s =>
  match m s with
  | (Ok a, s') => k a s'
  | (Raise e, s') => (Raise e, s')
  end.

Definition st_get {S} : stM S S := fun s => (Ok s, s).
Definition st_put {S} (s : S) : stM S unit := fun _ => (Ok tt, s).
Definition st_raise {S A} (e : exn) : stM S A := fun s => (Raise e, s).
Definition st_lift {S A} (r : result A) : stM S A := fun s => (r, s).

(** [for x in l: body], threading the loop-carried value. *)
Fixpoint for_each {S X T} (l : list X) (body : X -> T -> stM S T) (t : T) : stM S T :=
  match l with
  | [] => mret t
  | x :: l' => t' ← body x t; for_each l' body t'
  end.

(** [xrange(a, b)] *)
Definition xrange (a b : nat) : list nat := seq a (b - a).

(* ===================================================================== *)
(** ** Dicts shared by reference *)
(* ===================================================================== *)

Definition loc : Type := nat.

(** The heap of dict objects: every [method] descriptor lives here, so two
    references to one dict see each other's writes. *)
Abbreviation dict := (gmap string pyval).
Abbreviation heap := (gmap nat (gmap string pyval)).

(** A location that no dict occupies. *)
Definition fresh_loc (h : heap) : loc := fresh (dom h).

(** A dict display [{...}]: allocate a new object. *)
Definition alloc_dict (d : dict) : stM heap loc := fun h =>
  let l := fresh_loc h in (Ok l, <[l := d]> h).

(** [d[k] = v] *)
Definition dict_setitem (l : loc) (k : string) (v : pyval) : stM heap unit := fun h =>
  match h !! l with
  | Some d => (Ok tt, <[l := <[k := v]> d]> h)
  | None => (Raise TypeError, h)
  end.

(** [d.get(k, default)] *)
Definition dict_get (l : loc) (k : string) (default : pyval) : stM heap pyval := fun h =>
  match h !! l with
  | Some d => (Ok (match d !! k with Some v => v | None => default end), h)
  | None => (Raise TypeError, h)
  end.

(** [d[k]] *)
Definition dict_getitem (l : loc) (k : string) : stM heap pyval := fun h =>
  match h !! l with
  | Some d => match d !! k with
              | Some v => (Ok v, h)
              | None => (Raise (KeyError k), h)
              end
  | None => (Raise TypeError, h)
  end.

(** [v != 'mlab'] and the like: comparison of a value with a string. *)
Definition pyval_ne_str (v : pyval) (s : string) : bool :=
  match v with
  | VStr s' => negb (String.eqb s' s)
  | _ => true
  end.

(** What the analyzers read off a time series. *)
Record time_series : Type := mk_time_series {
  ts_data : ndarray;
  ts_sampling_rate : pyval;
  ts_time : list Z
}.

(* ===================================================================== *)
(** ** Analyzer constructors and the method descriptor *)
(* ===================================================================== *)

Record SpectralAnalyzer : Type := mkSpectralAnalyzer {
  sa_data : ndarray;
  sa_sampling_rate : pyval;
  sa_method : loc;
  sa_mlab_method : option loc
}.

(** [SpectralAnalyzer.__init__(self, time_series, method=None)] *)
Definition SpectralAnalyzer_init (ts : time_series) (method : option loc)
    : stM heap SpectralAnalyzer :=
  m ← match method with
      | Some l => mret l
      | None => alloc_dict ∅
      end;
  mret (mkSpectralAnalyzer (ts_data ts) (ts_sampling_rate ts) m None).

Section spectrum_mlab.
(** [tsa.get_spectra(data, method=...)]: the spectral-estimation primitive
    of [nitime.algorithms]; it returns the pair [(f, spectrum)]. *)
Context {spectra : Type}.
Variable get_spectra : ndarray -> dict -> result spectra.

(** The getter of [SpectralAnalyzer.spectrum_mlab]. *)
Definition SpectralAnalyzer_spectrum_mlab (self : SpectralAnalyzer)
    : stM heap (SpectralAnalyzer * spectra) :=
  let self := mkSpectralAnalyzer (sa_data self) (sa_sampling_rate self)
                (sa_method self) (Some (sa_method self)) in
  let mlab_method := sa_method self in
  dict_setitem mlab_method "this_method" (VStr "mlab");;
  dict_setitem mlab_method "Fs" (sa_sampling_rate self);;
  h ← st_get;
  match h !! mlab_method with
  | Some d => r ← st_lift (get_spectra (sa_data self) d); mret (self, r)
  | None => st_raise TypeError
  end.
End spectrum_mlab.

Record CoherenceAnalyzer : Type := mkCoherenceAnalyzer {
  ca_data : ndarray;
  ca_sampling_rate : pyval;
  ca_time : list Z;
  ca_method : loc
}.

(** [CoherenceAnalyzer.__init__(self, time_series, method=None)] *)
Definition CoherenceAnalyzer_init (ts : time_series) (method : option loc)
    : stM heap CoherenceAnalyzer :=
  m ← match method with
      | None => alloc_dict {[ "this_method"%string := VStr "mlab" ]}
      | Some l => mret l
      end;
  fs ← dict_get m "Fs" (ts_sampling_rate ts);
  dict_setitem m "Fs" fs;;
  mret (mkCoherenceAnalyzer (ts_data ts) (ts_sampling_rate ts) (ts_time ts) m).

Record SparseCoherenceAnalyzer : Type := mkSparseCoherenceAnalyzer {
  sca_data : ndarray;
  sca_sampling_rate : pyval;
  sca_ij : list (nat * nat);
  sca_method : loc;
  sca_lb : Q;
  sca_ub : option Q;
  sca_prefer_speed_over_memory : bool;
  sca_scale_by_freq : bool
}.

Definition sparse_method_msg : string :=
  "For SparseCoherenceAnalyzer, spectral estimationmethod must be mlab".

(** [SparseCoherenceAnalyzer.__init__(self, time_series, ij, method=None,
    lb=0, ub=None, prefer_speed_over_memory=False, scale_by_freq=True)] *)
Definition SparseCoherenceAnalyzer_init (ts : time_series) (ij : list (nat * nat))
    (method : option loc) (lb : Q) (ub : option Q)
    (prefer_speed_over_memory scale_by_freq : bool)
    : stM heap SparseCoherenceAnalyzer :=
  m ← match method with
      | None => alloc_dict {[ "this_method"%string := VStr "mlab" ]}
      | Some l => mret l
      end;
  this_method ← dict_getitem m "this_method";
  if pyval_ne_str this_method "mlab" then st_raise (ValueError sparse_method_msg)
  else
    fs ← dict_get m "Fs" (ts_sampling_rate ts);
    dict_setitem m "Fs" fs;;
    mret (mkSparseCoherenceAnalyzer (ts_data ts) (ts_sampling_rate ts) ij m
            lb ub prefer_speed_over_memory scale_by_freq).

(* ===================================================================== *)
(** ** The lazy derived-attribute cache *)
(* ===================================================================== *)

Section LazyCache.
(** The type of the objects a getter returns. *)
Context {V : Type}.

(** Modelled from the spec: the instance state behind
    [desc.setattr_on_read] and [desc.ResetMixin] of [nitime.descriptors],
    which the analyzers import. An instance holds the objects its getters
    have returned (an object's identity is its position in [objects]), the
    attribute names that are cached, each with the identity of its cached
    object, and how many times each getter has run. *)
Record instance : Type := mkInstance {
  objects : list V;
  cached : gmap string nat;
  invocations : gmap string nat
}.

Definition new_instance : instance := mkInstance [] ∅ ∅.

Definition invocation_count (name : string) (inst : instance) : nat :=
  default 0 (invocations inst !! name).

(** Modelled from the spec: reading a derived attribute. A cached
    attribute is returned as it is; otherwise the getter runs, and what
    it returns is cached. A getter that raises leaves the cache
    unpopulated. *)
Definition read_attr (name : string) (getter : result V) : stM instance nat :=
  fun inst =>
    match cached inst !! name with
    | Some l => (Ok l, inst)
    | None =>
        let count := <[name := S (invocation_count name inst)]> (invocations inst) in
        match getter with
        | Ok v =>
            let l := length (objects inst) in
            (Ok l, mkInstance (objects inst ++ [v]) (<[name := l]> (cached inst)) count)
        | Raise e => (Raise e, mkInstance (objects inst) (cached inst) count)
        end
    end.

(** Modelled from the spec: [ResetMixin.reset], which clears every cached
    derived value of the instance. *)
Definition reset (inst : instance) : instance :=
  mkInstance (objects inst) ∅ (invocations inst).
End LazyCache.
Arguments instance V : clear implicits.

(** The getter of [EventRelatedAnalyzer.FIR_estimate]. *)
Definition EventRelatedAnalyzer_FIR_estimate {V} : result V :=
  Raise NotImplementedError.

(* ===================================================================== *)
(** ** Three-dimensional arrays as nested lists *)
(* ===================================================================== *)

Section Tensor.
Context {A : Type}.

(** [np.zeros((n, m, k))] *)
Definition zeros3 (z : A) (n m k : nat) : list (list (list A)) :=
  replicate n (replicate m (replicate k z)).

(** [T[i][j]] *)
Definition getitem2 (T : list (list (list A))) (i j : nat) : result (list A) :=
  match T !! i with
  | Some row =>
      match row !! j with
      | Some v => Ok v
      | None => Raise IndexError
      end
  | None => Raise IndexError
  end.

Definition shape_mismatch_msg : string := "shape mismatch".

(** The value that [T[i][j] = v] stores in a row of length [k]: [v]
    itself, or its single entry broadcast. *)
Definition broadcast_to (k : nat) (v : list A) : result (list A) :=
  if length v =? k then Ok v
  else match v with
       | [x] => Ok (replicate k x)
       | _ => Raise (ValueError shape_mismatch_msg)
       end.

(** [T[i][j] = v] *)
Definition setitem2 (T : list (list (list A))) (i j : nat) (v : list A)
    : result (list (list (list A))) :=
  match T !! i with
  | Some row =>
      match row !! j with
      | Some old =>
          v' ← broadcast_to (length old) v;
          mret (<[i := <[j := v']> row]> T)
      | None => Raise IndexError
      end
  | None => Raise IndexError
  end.

(** [T[i, j, f]], when the indices are in range. *)
Definition entry (T : list (list (list A))) (i j f : nat) : option A :=
  row ← T !! i; v ← row !! j; v !! f.

Fixpoint result_mapM {X Y} (f : X -> result Y) (l : list X) : result (list Y) :=
  match l with
  | [] => Ok []
  | x :: l' => y ← f x; ys ← result_mapM f l'; mret (y :: ys)
  end.

Fixpoint result_foldl {X Y} (f : Y -> X -> result Y) (y : Y) (l : list X) : result Y :=
  match l with
  | [] => Ok y
  | x :: l' => y' ← f y x; result_foldl f y' l'
  end.

(** Modelled from the spec: [tsu.tril_indices(n, -1)] of [nitime.utils],
    the index pairs [(row, column)] of the strictly-lower triangle, in
    row-major order. *)
Definition tril_indices (n : nat) : list (nat * nat) :=
  flat_map (fun r => map (fun c => (r, c)) (seq 0 r)) (seq 0 n).

(** [idx = tsu.tril_indices(n, -1)]
    [T[idx[0], idx[1], ...] = cj(T[idx[1], idx[0], ...])]:
    the right-hand side is gathered first, then scattered. *)
Definition mirror_lower (cj : A -> A) (n : nat) (T : list (list (list A)))
    : result (list (list (list A))) :=
  let idx := tril_indices n in
  rhs ← result_mapM (fun '(r, c) => v ← getitem2 T c r; mret (map cj v)) idx;
  result_foldl (fun T '((r, c), v) => setitem2 T r c v) T (zip idx rhs).
End Tensor.

(* ===================================================================== *)
(** ** CoherenceAnalyzer: the derived attributes *)
(* ===================================================================== *)

(** The names bound at module level in [timeseries.py]. *)
Definition module_globals : list string :=
  [ "warnings"; "np"; "signal"; "desc"; "tsu"; "tsa";
    "time_unit_conversion"; "base_unit";
    "TimeInterface"; "TimeArray"; "UniformTime"; "Frequency";
    "TimeSeriesInterface"; "TimeSeriesBase"; "UniformTimeSeries";
    "NonUniformTimeSeries"; "time_series_from_file";
    "nifti_from_time_series"; "concatenate_uniform_time_series";
    "concatenate_time_series"; "SpectralAnalyzer"; "CoherenceAnalyzer";
    "SparseCoherenceAnalyzer"; "CorrelationAnalyzer";
    "EventRelatedAnalyzer"; "HilbertAnalyzer"; "FilterAnalyzer" ]%string.

(** Evaluating a name that should hold an integer: the local scope, then
    the module's; a name bound in neither raises [NameError]. *)
Definition lookup_name (locals : gmap string nat) (name : string) : result nat :=
  match locals !! name with
  | Some v => Ok v
  | None =>
      if existsb (String.eqb name) module_globals then Raise TypeError
      else Raise (NameError name)
  end.

Section DenseCoherence.
(** Complex and real entries, complex conjugation and the zeros that
    [np.zeros] fills with. *)
Context {C R : Type}.
Variables (conj : C -> C) (czero : C) (rzero : R).

(** The pairwise estimators of [nitime.algorithms]. What
    [coherence_calculate] and [coherency_phase_spectrum_calculate] return
    is taken as it is stored in a float64 array. *)
Variable coherence_calculate : list C -> list C -> list C -> list R.
Variable coherency_calculate : list C -> list C -> list C -> list C.
Variable coherency_phase_spectrum_calculate : list C -> list R.
Variable coherence_partial_calculate :
  list C -> list C -> list C -> list C -> list C -> list C -> list C.

(** The analyzer, with the value of its cached attribute [self.spectrum]
    and [self.spectrum.shape[-1]]. *)
Variable self : CoherenceAnalyzer.
Variable spectrum : list (list (list C)).
Variable spectrum_length : nat.

(** A call of a pairwise estimator, recorded with the index pair it is
    made for. *)
Definition invoke {X} (ij : nat * nat) (v : X) : stM (list (nat * nat)) X :=
  fun calls => (Ok v, calls ++ [ij]).

(** The getter of [CoherenceAnalyzer.coherence]. [conj()] of a float64
    array is the array itself. *)
Definition CoherenceAnalyzer_coherence : stM (list (nat * nat)) (list (list (list R))) :=
  tseries_length ← st_lift (shape_first (ca_data self));
  let coherence := zeros3 rzero tseries_length tseries_length spectrum_length in
  coherence ← for_each (xrange 0 tseries_length) (fun i coherence =>
    for_each (xrange i tseries_length) (fun j coherence =>
      sij ← st_lift (getitem2 spectrum i j);
      sii ← st_lift (getitem2 spectrum i i);
      sjj ← st_lift (getitem2 spectrum j j);
      v ← invoke (i, j) (coherence_calculate sij sii sjj);
      st_lift (setitem2 coherence i j v)) coherence) coherence;
  st_lift (mirror_lower (fun x => x) tseries_length coherence).

(** The getter of [CoherenceAnalyzer.coherency]. *)
Definition CoherenceAnalyzer_coherency : stM (list (nat * nat)) (list (list (list C))) :=
  tseries_length ← st_lift (shape_first (ca_data self));
  let coherency := zeros3 czero tseries_length tseries_length spectrum_length in
  coherency ← for_each (xrange 0 tseries_length) (fun i coherency =>
    for_each (xrange i tseries_length) (fun j coherency =>
      sij ← st_lift (getitem2 spectrum i j);
      sii ← st_lift (getitem2 spectrum i i);
      sjj ← st_lift (getitem2 spectrum j j);
      v ← invoke (i, j) (coherency_calculate sij sii sjj);
      st_lift (setitem2 coherency i j v)) coherency) coherency;
  st_lift (mirror_lower conj tseries_length coherency).

(** The getter of [CoherenceAnalyzer.phase]. *)
Definition CoherenceAnalyzer_phase : result (list (list (list R))) :=
  tseries_length ← shape_first (ca_data self);
  let phase := zeros3 rzero tseries_length tseries_length spectrum_length in
  result_foldl (fun phase i =>
    result_foldl (fun phase j =>
      sij ← getitem2 spectrum i j;
      phase ← setitem2 phase i j (coherency_phase_spectrum_calculate sij);
      sij ← getitem2 spectrum i j;
      setitem2 phase j i (coherency_phase_spectrum_calculate (map conj sij)))
      phase (xrange i tseries_length))
    phase (xrange 0 tseries_length).

(** [p[i][j][k] = v] on a four-dimensional array. *)
Definition setitem3 (p : list (list (list (list C)))) (i j k : nat) (v : list C)
    : result (list (list (list (list C)))) :=
  match p !! i with
  | Some plane => plane' ← setitem2 plane j k v; mret (<[i := plane']> p)
  | None => Raise IndexError
  end.

(** The getter of [CoherenceAnalyzer.coherence_partial]. The names of its
    local scope are looked up as Python does, when the [xrange] that uses
    them is evaluated. *)
Definition CoherenceAnalyzer_coherence_partial : result (list (list (list (list C)))) :=
  n ← shape_first (ca_data self);
  let locals : gmap string nat :=
    {[ "tseries_length"%string := n; "spectrum_length"%string := spectrum_length ]} in
  tseries_length ← lookup_name locals "tseries_length";
  let p_coherence := replicate tseries_length
                       (zeros3 czero tseries_length tseries_length spectrum_length) in
  bound_i ← lookup_name locals "tseries_length";
  result_foldl (fun p_coherence i =>
    bound_j ← lookup_name locals "tseries_length";
    result_foldl (fun p_coherence j =>
      bound_k ← lookup_name locals "t_series_length";
      result_foldl (fun p_coherence k =>
        sij ← getitem2 spectrum i j;
        sii ← getitem2 spectrum i i;
        sjj ← getitem2 spectrum j j;
        sik ← getitem2 spectrum i k;
        sjk ← getitem2 spectrum j k;
        skk ← getitem2 spectrum k k;
        setitem3 p_coherence i j k
          (coherence_partial_calculate sij sii sjj sik sjk skk))
        p_coherence (xrange 0 bound_k))
      p_coherence (xrange 0 bound_j))
    p_coherence (xrange 0 bound_i).
End DenseCoherence.

(* ===================================================================== *)
(** ** CorrelationAnalyzer *)
(* ===================================================================== *)

(** [sum(l)] *)
Definition Qsum (l : list Q) : Q := foldr Qplus 0%Q l.

(** Modelled from the spec: [tsu.xcorr(x, y)] of [nitime.utils], the full
    cross-correlation ('full' convolution semantics, as numpy's
    [correlate(x, y, 'full')]): entry [m] sums [x[n + m - (len(y) - 1)] * y[n]]
    over the [n] for which both indices are in range. For two series of
    [T] points it has [2*T - 1] entries, with zero lag at index [T - 1]. *)
Definition tsu_xcorr (x y : list Q) : list Q :=
  map (fun m =>
         Qsum (map (fun n =>
                      if length y - 1 <=? n + m
                      then match x !! (n + m - (length y - 1)), y !! n with
                           | Some a, Some b => (a * b)%Q
                           | _, _ => 0%Q
                           end
                      else 0%Q)
                   (seq 0 (length y))))
      (seq 0 (length x + length y - 1)).

(** [a[rows-1 leading indices]]: the rows of an array along its last axis. *)
Definition rows_of (a : ndarray) : result (list (list Q)) :=
  t ← shape_last a;
  let n := foldr Nat.mul 1 (removelast (shape a)) in
  mret (map (fun r => take t (drop (r * t) (flat a))) (seq 0 n)).

(** [data[i]] on a two-dimensional array (channels by time points). *)
Definition getrow (a : ndarray) (i : nat) : result (list Q) :=
  match shape a with
  | [n; t] => if i <? n then Ok (take t (drop (i * t) (flat a))) else Raise IndexError
  | _ => Raise TypeError
  end.

Record CorrelationAnalyzer : Type := mkCorrelationAnalyzer {
  cor_data : ndarray;
  cor_sampling_interval : TimeArray
}.

Definition negative_dimensions_msg : string := "negative dimensions are not allowed".

(** [m[i, j]] on a matrix. *)
Definition getitem_matrix (m : list (list Q)) (i j : nat) : result Q :=
  match m !! i with
  | Some row => match row !! j with Some v => Ok v | None => Raise IndexError end
  | None => Raise IndexError
  end.

(** [v[k]] *)
Definition getitem1 {A} (v : list A) (k : nat) : result A :=
  match v !! k with Some a => Ok a | None => Raise IndexError end.

(** The getter of [CorrelationAnalyzer.xcorr_norm]: the data of the series
    it returns. [correlation] is the value of the cached attribute
    [self.correlation], that is [np.corrcoef(self.data)]. A division by
    zero, which gives [inf] or [nan] in numpy, is outside what [Q]
    represents. *)
Definition CorrelationAnalyzer_xcorr_norm (self : CorrelationAnalyzer)
    (correlation : list (list Q)) : result (list (list (list Q))) :=
  tseries_length ← shape_first (cor_data self);
  t_points ← shape_last (cor_data self);
  if t_points =? 0 then Raise (ValueError negative_dimensions_msg)
  else
    let xcorr := zeros3 0%Q tseries_length tseries_length (t_points * 2 - 1) in
    xcorr ← result_foldl (fun xcorr i =>
      result_foldl (fun xcorr j =>
        xi ← getrow (cor_data self) i;
        xj ← getrow (cor_data self) j;
        xcorr ← setitem2 xcorr i j (tsu_xcorr xi xj);
        row ← getitem2 xcorr i j;
        d ← getitem1 row t_points;
        xcorr ← setitem2 xcorr i j (map (fun x => x / d)%Q row);
        row ← getitem2 xcorr i j;
        r ← getitem_matrix correlation i j;
        setitem2 xcorr i j (map (fun x => x * r)%Q row))
        xcorr (xrange i tseries_length))
      xcorr (xrange 0 tseries_length);
    mirror_lower (fun x => x) tseries_length xcorr.

(** The Pearson correlation coefficient of two series: [r] is
    [sxy / sqrt(sxx * syy)] for the centred sums of products. *)
Definition Qmean (l : list Q) : Q := (Qsum l / inject_Z (Z.of_nat (length l)))%Q.

Definition centred_product (x y : list Q) : Q :=
  Qsum (zip_with (fun a b => (a - Qmean x) * (b - Qmean y))%Q x y).

Definition is_pearson (x y : list Q) (r : Q) : Prop :=
  (0 < centred_product x x /\ 0 < centred_product y y /\
   r * r * (centred_product x x * centred_product y y)
     == centred_product x y * centred_product x y /\
   0 <= r * centred_product x y)%Q.

(* ===================================================================== *)
(** ** HilbertAnalyzer and FilterAnalyzer *)
(* ===================================================================== *)

Section FourierFilter.
(** Fourier coefficients, with numpy's transforms along the last axis and
    [np.real]; [tsu.get_freqs(sampling_rate, n)] of [nitime.utils] gives
    the non-negative frequencies of an [n]-point transform. *)
Context {C : Type}.
Variables (czero : C) (fft : list Q -> list C) (ifft : list C -> list C)
          (real : C -> Q).
Variable get_freqs : pyval -> nat -> list Q.

(** [np.where(cond)[0]] for a condition on the entries of [freqs]. *)
Definition np_where (cond : Q -> bool) (freqs : list Q) : list Z :=
  map Z.of_nat
      (List.filter (fun k => match freqs !! k with
                             | Some f => cond f
                             | None => false
                             end) (seq 0 (length freqs))).

(** An index along an axis of length [n]; a negative one counts from the
    end. *)
Definition normalize_index (n : nat) (k : Z) : result nat :=
  if (0 <=? k)%Z && (k <? Z.of_nat n)%Z then Ok (Z.to_nat k)
  else if (- Z.of_nat n <=? k)%Z && (k <? 0)%Z then Ok (Z.to_nat (Z.of_nat n + k))
  else Raise IndexError.

(** [row[idx] = 0] *)
Definition zero_at (idx : list Z) (row : list C) : result (list C) :=
  result_foldl (fun row k => n ← normalize_index (length row) k;
                             mret (<[n := czero]> row)) row idx.

(** [power[..., idx] = 0] *)
Definition zero_columns (idx : list Z) (power : list (list C)) : result (list (list C)) :=
  result_mapM (zero_at idx) power.

Definition Qlt_bool (a b : Q) : bool := negb (Qle_bool b a).

(** [freqs[-1]] *)
Definition freqs_last (freqs : list Q) : result Q :=
  match last freqs with Some f => Ok f | None => Raise IndexError end.

(** [HilbertAnalyzer.__init__(self, time_series, lb=0, ub=None)]: the
    attribute [self.data] it sets. *)
Definition HilbertAnalyzer_init (ts : time_series) (lb : Q) (ub : option Q)
    : result ndarray :=
  let data_in := ts_data ts in
  n ← shape_last data_in;
  let freqs := get_freqs (ts_sampling_rate ts) n in
  ub ← match ub with Some u => Ok u | None => freqs_last freqs end;
  rows ← rows_of data_in;
  let power := map fft rows in
  let idx_0 := np_where (fun f => Qlt_bool f lb) freqs
               ++ np_where (fun f => Qlt_bool ub f) freqs in
  power ← zero_columns idx_0 power;
  power ← zero_columns (map (fun k => (-1 * k)%Z) idx_0) power;
  let data_out := map ifft power in
  mret (mk_ndarray (shape data_in) (concat (map (map real) data_out))).

Record FilterAnalyzer : Type := mkFilterAnalyzer {
  fa_data : ndarray;
  fa_sampling_rate : pyval;
  fa_freqs : list Q;
  fa_ub : option Q;
  fa_lb : Q
}.

(** [FilterAnalyzer.__init__(self, time_series, lb=0, ub=None)] *)
Definition FilterAnalyzer_init (ts : time_series) (lb : Q) (ub : option Q)
    : result FilterAnalyzer :=
  n ← shape_last (ts_data ts);
  mret (mkFilterAnalyzer (ts_data ts) (ts_sampling_rate ts)
          (get_freqs (ts_sampling_rate ts) n) ub lb).

(** The getter of [FilterAnalyzer.filtered_fourier]: the data of the
    series it returns. *)
Definition FilterAnalyzer_filtered_fourier (self : FilterAnalyzer) : result ndarray :=
  ub ← match fa_ub self with Some u => Ok u | None => freqs_last (fa_freqs self) end;
  rows ← rows_of (fa_data self);
  let power := map fft rows in
  let idx_0 := np_where (fun f => Qlt_bool f (fa_lb self)) (fa_freqs self)
               ++ np_where (fun f => Qlt_bool ub f) (fa_freqs self) in
  power ← zero_columns idx_0 power;
  let data_out := map ifft power in
  mret (mk_ndarray (shape (fa_data self)) (concat (map (map real) data_out))).
End FourierFilter.

(* ===================================================================== *)
(** ** TimeArray (one-dimensional): index_at and at *)
(* ===================================================================== *)

(** A one-dimensional [TimeArray]: its int64 ticks at base resolution, the
    display unit and the conversion factor. *)
Record TimeArray1d : Type := mkTimeArray1d {
  ticks : list Z;
  ta1_time_unit : string;
  ta1_conversion_factor : Z
}.

Definition zero_size_msg : string :=
  "zero-size array to reduction operation minimum which has no identity".

(** [np.min(d)] *)
Definition np_min (d : list Z) : result Z :=
  match d with
  | [] => Raise (ValueError zero_size_msg)
  | x :: d' => Ok (foldr Z.min x d')
  end.

(** [np.abs(z)] on an int64. *)
Definition np_abs64 (z : Z) : Z := wrap64 (Z.abs z).

(** [np.where(cond)[0]] for a condition on the entries of a
    one-dimensional integer array. *)
Definition np_where_Z (cond : Z -> bool) (d : list Z) : list nat :=
  List.filter (fun k => match d !! k with
                        | Some x => cond x
                        | None => false
                        end) (seq 0 (length d)).

(** [TimeArray.index_at(self, t, tol=None)] for a scalar [t]: the index
    array of the tuple that [np.where] returns. *)
Definition TimeArray_index_at (self : TimeArray1d) (t : time_data)
    (tol : option time_data) : result (list nat) :=
  t_e ← TimeArray_new t (Some (ta1_time_unit self)) false;
  let d := map (fun x => np_abs64 (wrap64 (x - tick t_e))) (ticks self) in
  match tol with
  | None =>
      m ← np_min d;
      mret (np_where_Z (fun x => (x =? m)%Z) d)
  | Some tol =>
      tol ← TimeArray_new tol (Some (ta1_time_unit self)) false;
      mret (np_where_Z (fun x => (x <=? tick tol)%Z) d)
  end.

(** [TimeArray.at(self, t, tol=None)]: the ticks at the indices found. *)
Definition TimeArray_at (self : TimeArray1d) (t : time_data)
    (tol : option time_data) : result (list Z) :=
  idx ← TimeArray_index_at self t tol;
  result_mapM (getitem1 (ticks self)) idx.

(* ===================================================================== *)
(** ** CorrelationAnalyzer.xcorr *)
(* ===================================================================== *)

(** The getter of [CorrelationAnalyzer.xcorr]: the data of the series it
    returns. *)
Definition CorrelationAnalyzer_xcorr (self : CorrelationAnalyzer)
    : result (list (list (list Q))) :=
  tseries_length ← shape_first (cor_data self);
  t_points ← shape_last (cor_data self);
  if t_points =? 0 then Raise (ValueError negative_dimensions_msg)
  else
    let xcorr := zeros3 0%Q tseries_length tseries_length (t_points * 2 - 1) in
    xcorr ← result_foldl (fun xcorr i =>
      result_foldl (fun xcorr j =>
        xi ← getrow (cor_data self) i;
        xj ← getrow (cor_data self) j;
        setitem2 xcorr i j (tsu_xcorr xi xj))
        xcorr (xrange i tseries_length))
      xcorr (xrange 0 tseries_length);
    mirror_lower (fun x => x) tseries_length xcorr.

(* ===================================================================== *)
(** ** Notions used to state the properties *)
(* ===================================================================== *)

Section TensorShape.
Context {A : Type}.

(** The row [T[i][j]], when [i] and [j] are in range. *)
Definition cell (T : list (list (list A))) (i j : nat) : option (list A) :=
  row ← T !! i; row !! j.

(** The row [T[i][j]], empty when out of range. *)
Definition cell_or_nil (T : list (list (list A))) (i j : nat) : list A :=
  default [] (cell T i j).

(** [T.shape == (n, m, k)] *)
Definition has_shape3 (n m k : nat) (T : list (list (list A))) : Prop :=
  length T = n /\
  Forall (fun row => length row = m /\ Forall (fun v => length v = k) row) T.
(** [n] by [n] rows of length [F], each in range. *)
Definition square (T : list (list (list A))) (n F : nat) : Prop :=
  forall i j, i < n -> j < n -> exists v, cell T i j = Some v /\ length v = F.
End TensorShape.

(** The index pairs [(i, j)] with [i <= j < n], in the order of the loops
    [for i in xrange(n): for j in xrange(i, n)]. *)
Definition upper_pairs (n : nat) : list (nat * nat) :=
  flat_map (fun i => map (pair i) (xrange i n)) (xrange 0 n).

(** Exactly two of the interval, the rate, the length and the duration are
    given, and not the interval together with the rate. *)
Definition two_of_four (interval rate length duration : bool) : bool :=
  (Nat.b2n interval + Nat.b2n rate + Nat.b2n length + Nat.b2n duration =? 2)
  && negb (interval && rate).

(** Channel [i] of a two-dimensional array with [t] time points. *)
Definition channel (a : ndarray) (t i : nat) : list Q :=
  take t (drop (i * t) (flat a)).

(** Whether the frequency of bin [k] is outside the band [[lb, ub]]; a bin
    beyond the frequency grid is not. *)
Definition out_of_band (freqs : list Q) (lb ub : Q) (k : nat) : bool :=
  match freqs !! k with
  | Some f => Qlt_bool f lb || Qlt_bool ub f
  | None => false
  end.

(** A row of Fourier coefficients with the out-of-band bins zeroed. *)
Definition curtailed {C : Type} (czero : C) (freqs : list Q) (lb ub : Q)
    (row : list C) : list C :=
  imap (fun k c => if out_of_band freqs lb ub k then czero else c) row.

(** The bin that the index [-k] of a row of [n] coefficients falls on. *)
Definition mirror_bin (n k : nat) : nat := if k =? 0 then 0 else n - k.

(** A row of Fourier coefficients with the out-of-band bins and their
    mirror images zeroed. *)
Definition curtailed_mirrored {C : Type} (czero : C) (freqs : list Q) (lb ub : Q)
    (row : list C) : list C :=
  imap (fun k c => if out_of_band freqs lb ub k
                      || out_of_band freqs lb ub (mirror_bin (length row) k)
                   then czero else c) row.

(* ===================================================================== *)
(** * Properties *)
(* ===================================================================== *)

(** ** Results and the unit table *)





(** ** Integer conversions *)

Lemma wrap64_small (z : Z) : (- 2 ^ 63 <= z < 2 ^ 63)%Z -> wrap64 z = z.
Proof.
  intros H. unfold wrap64. rewrite Z.mod_small; lia.
Qed.


(** ** C2: Frequency.to_period *)





(** ** C4: dimensions of a time series *)

(** The constructor checks the time unit and nothing else: with a valid
    unit it returns a series holding [data] and [time] as they are. *)
Lemma NonUniformTimeSeries_init_Ok (data time : ndarray) (u : option string) :
  valid_time_unit u = true ->
  NonUniformTimeSeries_init data time u
  = Ok (mkNonUniformTimeSeries data u ∅ time).
Proof.
  intros Hu. unfold NonUniformTimeSeries_init, TimeSeriesBase_init.
  now rewrite Hu.
Qed.

(** The validator accepts exactly the series that satisfy the invariant. *)
Lemma _validate_dimensionality_Ok (ts : NonUniformTimeSeries) :
  _validate_dimensionality ts = Ok tt <-> dimensions_agree ts.
Proof.
  unfold _validate_dimensionality, dimensions_agree, ndim, shape_last, py_len.
  destruct ts as [d u md t]; simpl.
  destruct (shape t) as [|n [|m l]]; simpl.
  - split; [discriminate|]. intros (n & H & _). discriminate.
  - destruct (last (shape d)) as [k|]; simpl.
    + destruct (k =? n) eqn:E; simpl.
      * apply Nat.eqb_eq in E. subst k. split; [|reflexivity].
        intros _. now exists n.
      * apply Nat.eqb_neq in E. split; [discriminate|].
        intros (n' & [= ->] & [= ->]). now destruct E.
    + split; [discriminate|]. intros (n' & _ & H). discriminate.
  - split; [discriminate|]. intros (n' & H & _). discriminate.
Qed.

(** C4: the code has the check, [_validate_dimensionality], but no
    constructor calls it. [NonUniformTimeSeries([1, 2, 3], [0, 1])]
    returns a series of three data points on two time points, and so does
    a construction on a two-dimensional time array; the validator rejects
    both objects. *)
Theorem C4_mismatched_series_is_constructed :
  let data := mk_ndarray [3] [1; 2; 3]%Q in
  let time := mk_ndarray [2] [0; 1]%Q in
  let time2d := mk_ndarray [1; 3] [0; 1; 2]%Q in
  (exists ts,
      NonUniformTimeSeries_init data time (Some "s"%string) = Ok ts /\
      nts_data ts = data /\ nts_time ts = time /\
      ~ dimensions_agree ts /\
      _validate_dimensionality ts = Raise (ValueError mismatch_msg)) /\
  (exists ts,
      NonUniformTimeSeries_init data time2d (Some "s"%string) = Ok ts /\
      nts_data ts = data /\ nts_time ts = time2d /\
      ~ dimensions_agree ts /\
      _validate_dimensionality ts = Raise (ValueError time_not_1d_msg)).
Proof.
  split.
  - eexists. split; [reflexivity|]. repeat split.
    intros H. apply _validate_dimensionality_Ok in H. discriminate.
  - eexists. split; [reflexivity|]. repeat split.
    intros H. apply _validate_dimensionality_Ok in H. discriminate.
Qed.

(** ** C6: UniformTime *)

(** [UniformTime(length=4, sampling_rate=2, time_unit='s')] has the ticks
    0, 0.5, 1 and 1.5 seconds. *)
Example UniformTime_length4_rate2 :
  exists u,
    UniformTime_new (Some 4%Z) None (Some (RateNum 2)) None 0 (Some "s"%string) = Ok u /\
    ut_ticks u = [0; 500000000000; 1000000000000; 1500000000000]%Z /\
    ut_conversion_factor u = 1000000000000%Z /\
    tick (ut_t0 u) = 0%Z.
Proof. eexists. split; [vm_compute; reflexivity|]. repeat split. Qed.





(** C6: [length] is documented as "the number of items in the time-array",
    but the entries are counted from the duration and the interval after
    both are rounded to ticks. [UniformTime(length=3, duration=1)] has the
    interval round(10^12 / 3) = 333333333333 ticks and the duration 10^12
    ticks, hence four ticks and not three; so has
    [UniformTime(length=3, sampling_interval=1/3.)]. *)
Theorem C6_length_not_honoured :
  (exists u,
      UniformTime_new (Some 3%Z) (Some (Num 1)) None None 0 None = Ok u /\
      ut_ticks u = [0; 333333333333; 666666666666; 999999999999]%Z /\
      tick (ut_sampling_interval u) = 333333333333%Z /\
      tick (ut_duration u) = 1000000000000%Z /\
      List.length (ut_ticks u) = 4) /\
  (exists u,
      UniformTime_new (Some 3%Z) None None (Some (1 # 3)) 0 None = Ok u /\
      List.length (ut_ticks u) = 4).
Proof.
  split.
  - eexists. split; [vm_compute; reflexivity|]. repeat split.
  - eexists. split; [vm_compute; reflexivity|]. reflexivity.
Qed.


(** ** C8: CoherenceAnalyzer.coherence_partial *)

Lemma t_series_length_unbound (n F : nat) :
  lookup_name (<[ "tseries_length"%string := n ]> {[ "spectrum_length"%string := F ]})
              "t_series_length"
  = Raise (NameError "t_series_length").
Proof.
  unfold lookup_name.
  rewrite lookup_insert_ne by discriminate.
  rewrite lookup_singleton_ne by discriminate.
  reflexivity.
Qed.

Lemma tseries_length_bound (n F : nat) :
  lookup_name (<[ "tseries_length"%string := n ]> {[ "spectrum_length"%string := F ]})
              "tseries_length"
  = Ok n.
Proof. unfold lookup_name. now rewrite lookup_insert_eq. Qed.

(** C8: the innermost loop ranges over [t_series_length], a name that is
    bound nowhere (the local is [tseries_length]). For a series with at
    least one channel the getter raises [NameError] when the first
    innermost loop is entered, and returns no tensor. All of C8 rests on
    this one slip. *)
Theorem C8_coherence_partial_raises {C : Type} (czero : C)
    (coherence_partial_calculate :
       list C -> list C -> list C -> list C -> list C -> list C -> list C)
    (self : CoherenceAnalyzer) (spectrum : list (list (list C)))
    (spectrum_length n : nat) :
  shape_first (ca_data self) = Ok n ->
  0 < n ->
  CoherenceAnalyzer_coherence_partial czero coherence_partial_calculate
    self spectrum spectrum_length
  = Raise (NameError "t_series_length").
Proof.
  intros Hn Hpos. unfold CoherenceAnalyzer_coherence_partial.
  rewrite Hn. cbv beta iota zeta delta [mbind result_bind mret result_ret].
  rewrite tseries_length_bound, t_series_length_unbound.
  destruct n as [|n]; [lia|].
  reflexivity.
Qed.

(** A series of two channels. *)
Lemma C8_coherence_partial_raises_witness :
  CoherenceAnalyzer_coherence_partial (0%Z, 0%Z) (fun fxy _ _ _ _ _ => fxy)
    (mkCoherenceAnalyzer (mk_ndarray [2; 4] [1; 2; 3; 4; 4; 3; 2; 1]%Q) (VNum 1) [] 0)
    [ [ [(5, 0)]; [(1, 2)] ]; [ [(1, -2)]; [(7, 0)] ] ]%Z 1
  = Raise (NameError "t_series_length").
Proof.
  apply (C8_coherence_partial_raises (0%Z, 0%Z) (fun fxy _ _ _ _ _ => fxy)
           (mkCoherenceAnalyzer (mk_ndarray [2; 4] [1; 2; 3; 4; 4; 3; 2; 1]%Q)
              (VNum 1) [] 0)
           [ [ [(5, 0)]; [(1, 2)] ]; [ [(1, -2)]; [(7, 0)] ] ]%Z 1 2).
  - reflexivity.
  - lia.
Defined.

(** X10: Without channels no loop body runs and the empty tensor is returned. *)
Lemma coherence_partial_no_channels {C : Type} (czero : C) calc
    (self : CoherenceAnalyzer) (spectrum : list (list (list C))) (F : nat) :
  shape_first (ca_data self) = Ok 0 ->
  CoherenceAnalyzer_coherence_partial czero calc self spectrum F = Ok [].
Proof.
  intros Hn. unfold CoherenceAnalyzer_coherence_partial. rewrite Hn.
  cbv beta iota zeta delta [mbind result_bind mret result_ret].
  now rewrite tseries_length_bound.
Qed.

(** ** C3: CorrelationAnalyzer.xcorr_norm *)

(** The full cross-correlation has its zero lag, the plain sum of
    products, in the middle. *)
Example tsu_xcorr_123 :
  tsu_xcorr [1; 2; 3]%Q [1; 2; 3]%Q = [3; 8; 14; 8; 3]%Q.
Proof. reflexivity. Qed.

(** C3: the docstring says "the zero lag correlation is normalized to be
    equal to the correlation coefficient", but the cross-correlation of a
    pair is divided by its entry [t_points], one past the zero lag at
    [t_points - 1]. For the channels [1, 2, 3] and [3, 2, 1], whose
    Pearson coefficients are 1 on the diagonal and -1 off it, entry
    [0, 0] of the result is 7/4 at zero lag (index 2) and 1 at index 3;
    entry [0, 1] is -5/6 at zero lag and -1 at index 3. *)
Theorem C3_xcorr_norm_normalises_lag_one :
  let data := mk_ndarray [2; 3] [1; 2; 3; 3; 2; 1]%Q in
  let self := mkCorrelationAnalyzer data (mkTimeArray 1000000000000 "s" 1000000000000) in
  let correlation := [[1; -1]; [-1; 1]]%Q in
  is_pearson [1; 2; 3]%Q [1; 2; 3]%Q 1 /\
  is_pearson [1; 2; 3]%Q [3; 2; 1]%Q (-1) /\
  is_pearson [3; 2; 1]%Q [3; 2; 1]%Q 1 /\
  exists X z00 l00 z01 l01,
    CorrelationAnalyzer_xcorr_norm self correlation = Ok X /\
    entry X 0 0 2 = Some z00 /\ (z00 == 7 # 4)%Q /\ ~ (z00 == 1)%Q /\
    entry X 0 0 3 = Some l00 /\ (l00 == 1)%Q /\
    entry X 0 1 2 = Some z01 /\ (z01 == - (5 # 6))%Q /\ ~ (z01 == -1)%Q /\
    entry X 0 1 3 = Some l01 /\ (l01 == -1)%Q.
Proof.
  intros data self correlation.
  split; [|split; [|split]].
  - unfold is_pearson; vm_compute; repeat split; discriminate.
  - unfold is_pearson; vm_compute; repeat split; discriminate.
  - unfold is_pearson; vm_compute; repeat split; discriminate.
  - eexists. eexists. eexists. eexists. eexists.
    split; [vm_compute; reflexivity|].
    split; [vm_compute; reflexivity|].
    split; [vm_compute; reflexivity|].
    split; [vm_compute; discriminate|].
    split; [vm_compute; reflexivity|].
    split; [vm_compute; reflexivity|].
    split; [vm_compute; reflexivity|].
    split; [vm_compute; reflexivity|].
    split; [vm_compute; discriminate|].
    split; [vm_compute; reflexivity|].
    vm_compute; reflexivity.
Qed.

(** ** C9: Fourier-domain filtering *)

(** C9: [HilbertAnalyzer.__init__] zeroes the out-of-band coefficients and
    their mirror images at the negative frequencies; in
    [FilterAnalyzer.filtered_fourier] the mirroring line is commented out.
    On four samples, with the frequencies 0, 1/4 and 1/2 and the band
    [0, 1/10], the coefficients 1 and 2 are out of band and coefficient 3
    mirrors coefficient 1: the Hilbert analyzer inverts (p0, 0, 0, 0), the
    filter analyzer inverts (p0, 0, 0, p3). *)
Theorem C9_filter_keeps_negative_frequencies {C : Type} (czero : C)
    (fft : list Q -> list C) (ifft : list C -> list C) (real : C -> Q)
    (get_freqs : pyval -> nat -> list Q) (sr : pyval)
    (d0 d1 d2 d3 : Q) (p0 p1 p2 p3 : C) :
  get_freqs sr 4 = [0; 1 # 4; 1 # 2]%Q ->
  fft [d0; d1; d2; d3] = [p0; p1; p2; p3] ->
  let ts := mk_time_series (mk_ndarray [4] [d0; d1; d2; d3]) sr [] in
  HilbertAnalyzer_init czero fft ifft real get_freqs ts 0 (Some (1 # 10))
  = Ok (mk_ndarray [4] (map real (ifft [p0; czero; czero; czero]))) /\
  (self ← FilterAnalyzer_init get_freqs ts 0 (Some (1 # 10));
   FilterAnalyzer_filtered_fourier czero fft ifft real self)
  = Ok (mk_ndarray [4] (map real (ifft [p0; czero; czero; p3]))).
Proof.
  intros Hfreqs Hfft ts. split.
  - unfold HilbertAnalyzer_init, ts. cbn [ts_data ts_sampling_rate].
    change (shape_last (mk_ndarray [4] [d0; d1; d2; d3])) with (Ok 4).
    change (rows_of (mk_ndarray [4] [d0; d1; d2; d3])) with (Ok [[d0; d1; d2; d3]]).
    cbv beta iota zeta delta [mbind result_bind mret result_ret].
    rewrite Hfreqs.
    match goal with |- context [np_where ?c1 ?f ++ np_where ?c2 ?f] =>
      change (np_where c1 f ++ np_where c2 f) with [1; 2]%Z end.
    cbn [map]. rewrite Hfft.
    change (zero_columns czero [1; 2]%Z [[p0; p1; p2; p3]])
      with (Ok [[p0; czero; czero; p3]]).
    cbv beta iota.
    change (zero_columns czero [(-1 * 1)%Z; (-1 * 2)%Z] [[p0; czero; czero; p3]])
      with (Ok [[p0; czero; czero; czero]]).
    cbn [map concat]. now rewrite app_nil_r.
  - unfold FilterAnalyzer_init, FilterAnalyzer_filtered_fourier, ts.
    cbn [ts_data ts_sampling_rate].
    change (shape_last (mk_ndarray [4] [d0; d1; d2; d3])) with (Ok 4).
    cbv beta iota zeta delta [mbind result_bind mret result_ret].
    cbn [fa_data fa_sampling_rate fa_freqs fa_ub fa_lb].
    change (rows_of (mk_ndarray [4] [d0; d1; d2; d3])) with (Ok [[d0; d1; d2; d3]]).
    cbv beta iota.
    rewrite Hfreqs.
    match goal with |- context [np_where ?c1 ?f ++ np_where ?c2 ?f] =>
      change (np_where c1 f ++ np_where c2 f) with [1; 2]%Z end.
    cbn [map]. rewrite Hfft.
    change (zero_columns czero [1; 2]%Z [[p0; p1; p2; p3]])
      with (Ok [[p0; czero; czero; p3]]).
    cbn [map concat]. now rewrite app_nil_r.
Qed.

(** The series 1, 2, 3, 4 with stub transforms that keep the samples as
    the real parts of the coefficients. *)
Lemma C9_filter_keeps_negative_frequencies_witness :
  let ts := mk_time_series (mk_ndarray [4] [1; 2; 3; 4]%Q) (VNum 1) [] in
  let fft := map (fun q : Q => (q, 0%Q)) in
  let ifft := fun l : list (Q * Q) => l in
  let get_freqs := fun (_ : pyval) (_ : nat) => [0; 1 # 4; 1 # 2]%Q in
  HilbertAnalyzer_init (0%Q, 0%Q) fft ifft fst get_freqs ts 0 (Some (1 # 10))
  = Ok (mk_ndarray [4] [1; 0; 0; 0]%Q) /\
  (self ← FilterAnalyzer_init get_freqs ts 0 (Some (1 # 10));
   FilterAnalyzer_filtered_fourier (0%Q, 0%Q) fft ifft fst self)
  = Ok (mk_ndarray [4] [1; 0; 0; 4]%Q).
Proof.
  exact (C9_filter_keeps_negative_frequencies (0%Q, 0%Q)
           (map (fun q : Q => (q, 0%Q))) (fun l => l) fst
           (fun _ _ => [0; 1 # 4; 1 # 2]%Q) (VNum 1) 1 2 3 4
           (1, 0)%Q (2, 0)%Q (3, 0)%Q (4, 0)%Q eq_refl eq_refl).
Defined.

(** ** C10: the method descriptor is shared *)

Lemma CoherenceAnalyzer_init_shares (h : heap) (l : loc) (m : dict) (ts : time_series) :
  h !! l = Some m ->
  m !! "Fs"%string = None ->
  CoherenceAnalyzer_init ts (Some l) h
  = (Ok (mkCoherenceAnalyzer (ts_data ts) (ts_sampling_rate ts) (ts_time ts) l),
     <[l := <["Fs"%string := ts_sampling_rate ts]> m]> h).
Proof.
  intros Hl Hfs. unfold CoherenceAnalyzer_init, dict_get, dict_setitem.
  cbv beta iota zeta delta [mbind stM_bind mret stM_ret].
  rewrite Hl. cbv beta iota. rewrite Hfs, Hl. reflexivity.
Qed.

Lemma SparseCoherenceAnalyzer_init_shares (h : heap) (l : loc) (m : dict)
    (ts : time_series) ij lb ub speed scale :
  h !! l = Some m ->
  m !! "Fs"%string = None ->
  m !! "this_method"%string = Some (VStr "mlab") ->
  SparseCoherenceAnalyzer_init ts ij (Some l) lb ub speed scale h
  = (Ok (mkSparseCoherenceAnalyzer (ts_data ts) (ts_sampling_rate ts) ij l
           lb ub speed scale),
     <[l := <["Fs"%string := ts_sampling_rate ts]> m]> h).
Proof.
  intros Hl Hfs Hm.
  unfold SparseCoherenceAnalyzer_init, dict_getitem, dict_get, dict_setitem, st_raise.
  cbv beta iota zeta delta [mbind stM_bind mret stM_ret].
  rewrite Hl, Hm. cbn [pyval_ne_str String.eqb Ascii.eqb Bool.eqb negb].
  cbv beta iota. rewrite Hl. cbv beta iota. rewrite Hfs, Hl. reflexivity.
Qed.

(** A failed construction leaves the caller's dict as it was. *)
Lemma SparseCoherenceAnalyzer_init_rejects (h : heap) (l : loc) (m : dict)
    (ts : time_series) ij lb ub speed scale (v : pyval) :
  h !! l = Some m ->
  m !! "this_method"%string = Some v ->
  pyval_ne_str v "mlab" = true ->
  SparseCoherenceAnalyzer_init ts ij (Some l) lb ub speed scale h
  = (Raise (ValueError sparse_method_msg), h).
Proof.
  intros Hl Hm Hv.
  unfold SparseCoherenceAnalyzer_init, dict_getitem, st_raise.
  cbv beta iota zeta delta [mbind stM_bind mret stM_ret].
  rewrite Hl, Hm. cbv beta iota. now rewrite Hv.
Qed.

Lemma SpectralAnalyzer_spectrum_mlab_shares {spectra : Type}
    (get_spectra : ndarray -> dict -> result spectra)
    (h : heap) (l : loc) (m : dict) (ts : time_series) :
  h !! l = Some m ->
  SpectralAnalyzer_init ts (Some l) h
  = (Ok (mkSpectralAnalyzer (ts_data ts) (ts_sampling_rate ts) l None), h) /\
  snd (SpectralAnalyzer_spectrum_mlab get_spectra
         (mkSpectralAnalyzer (ts_data ts) (ts_sampling_rate ts) l None) h)
  = <[l := <["Fs"%string := ts_sampling_rate ts]>
             (<["this_method"%string := VStr "mlab"]> m)]> h.
Proof.
  intros Hl. split; [reflexivity|].
  unfold SpectralAnalyzer_spectrum_mlab, dict_setitem, st_get, st_lift, st_raise.
  cbv beta iota zeta delta [mbind stM_bind mret stM_ret sa_method sa_sampling_rate sa_data].
  rewrite Hl. cbv beta iota. rewrite lookup_insert_eq. cbv beta iota.
  rewrite insert_insert_eq. rewrite lookup_insert_eq.
  now destruct (get_spectra _ _).
Qed.

(** C10: a [method] dict that the caller supplies is stored by reference.
    After a CoherenceAnalyzer is constructed on a dict without ['Fs'], the
    caller's dict holds ['Fs'], the sampling rate; so it does after the
    construction of a SparseCoherenceAnalyzer, which goes through when the
    dict names the method ['mlab']; and after [spectrum_mlab] is first
    read, the dict given to the SpectralAnalyzer holds ['this_method'] and
    ['Fs']. No other dict of the heap changes. *)
Theorem C10_method_dict_is_mutated_in_place {spectra : Type}
    (get_spectra : ndarray -> dict -> result spectra)
    (h : heap) (l : loc) (m : dict) (ts : time_series)
    (ij : list (nat * nat)) (lb : Q) (ub : option Q) (speed scale : bool) :
  h !! l = Some m ->
  m !! "Fs"%string = None ->
  (exists self,
      CoherenceAnalyzer_init ts (Some l) h
      = (Ok self, <[l := <["Fs"%string := ts_sampling_rate ts]> m]> h) /\
      ca_method self = l) /\
  (m !! "this_method"%string = Some (VStr "mlab") ->
   exists self,
      SparseCoherenceAnalyzer_init ts ij (Some l) lb ub speed scale h
      = (Ok self, <[l := <["Fs"%string := ts_sampling_rate ts]> m]> h) /\
      sca_method self = l) /\
  (exists self,
      SpectralAnalyzer_init ts (Some l) h = (Ok self, h) /\
      sa_method self = l /\
      snd (SpectralAnalyzer_spectrum_mlab get_spectra self h)
      = <[l := <["Fs"%string := ts_sampling_rate ts]>
                 (<["this_method"%string := VStr "mlab"]> m)]> h).
Proof.
  intros Hl Hfs. split; [|split].
  - eexists. split; [apply (CoherenceAnalyzer_init_shares h l m ts Hl Hfs)|reflexivity].
  - intros Hm. eexists.
    split; [apply (SparseCoherenceAnalyzer_init_shares h l m ts _ _ _ _ _ Hl Hfs Hm)|reflexivity].
  - destruct (SpectralAnalyzer_spectrum_mlab_shares get_spectra h l m ts Hl) as [Hi Hs].
    eexists. split; [exact Hi|]. split; [reflexivity|exact Hs].
Qed.

(** A caller's dict [{'this_method': 'mlab'}] at location 7, and a series
    sampled at 2 Hz. *)
Lemma C10_method_dict_is_mutated_in_place_witness :
  let m : dict := {[ "this_method"%string := VStr "mlab" ]} in
  let h : heap := {[ 7 := m ]} in
  let ts := mk_time_series (mk_ndarray [2; 2] [1; 2; 3; 4]%Q) (VNum 2) [] in
  (exists self,
      CoherenceAnalyzer_init ts (Some 7) h
      = (Ok self, <[7 := <["Fs"%string := VNum 2]> m]> h) /\
      ca_method self = 7) /\
  (exists self,
      SparseCoherenceAnalyzer_init ts [(0, 1)] (Some 7) 0 None false true h
      = (Ok self, <[7 := <["Fs"%string := VNum 2]> m]> h) /\
      sca_method self = 7) /\
  (exists self,
      SpectralAnalyzer_init ts (Some 7) h = (Ok self, h) /\
      sa_method self = 7 /\
      snd (SpectralAnalyzer_spectrum_mlab (fun _ _ => Ok tt) self h)
      = <[7 := <["Fs"%string := VNum 2]>
                 (<["this_method"%string := VStr "mlab"]> m)]> h).
Proof.
  intros m h ts.
  destruct (C10_method_dict_is_mutated_in_place (fun _ _ => Ok tt) h 7 m ts
              [(0, 1)] 0 None false true
              (lookup_singleton_eq 7 m)
              (lookup_singleton_ne "this_method"%string "Fs"%string (VStr "mlab")
                 ltac:(discriminate)))
    as (Hc & Hs & Hm).
  split; [exact Hc|]. split; [|exact Hm].
  exact (Hs (lookup_singleton_eq "this_method"%string (VStr "mlab"))).
Defined.

(** ** C5: the lazy cache *)

Section LazyCacheProperties.
Context {V : Type}.
Implicit Types (inst : instance V) (name : string) (v : V).

(** A read of a cached attribute changes nothing and runs no getter. *)
Lemma read_attr_cached name (getter : result V) inst (l : nat) :
  cached inst !! name = Some l ->
  read_attr name getter inst = (Ok l, inst).
Proof. intros H. unfold read_attr. now rewrite H. Qed.

(** The first read of an attribute whose getter returns: the object is
    new, it is cached, and the getter has run once more. *)
Lemma read_attr_first name v inst :
  cached inst !! name = None ->
  exists inst',
    read_attr name (Ok v) inst = (Ok (length (objects inst)), inst') /\
    cached inst' !! name = Some (length (objects inst)) /\
    objects inst' !! length (objects inst) = Some v /\
    invocation_count name inst' = S (invocation_count name inst).
Proof.
  intros H. unfold read_attr. rewrite H. eexists. split; [reflexivity|].
  cbn. split; [apply lookup_insert_eq|]. split.
  - rewrite lookup_app_r by lia. now rewrite Nat.sub_diag.
  - unfold invocation_count at 1. cbn. now rewrite lookup_insert_eq.
Qed.

(** A getter that raises is run again by every read: nothing is
    cached. *)
Lemma read_attr_raises name (e : exn) inst :
  cached inst !! name = None ->
  exists inst',
    read_attr name (Raise e) inst = (Raise e, inst') /\
    cached inst' !! name = None /\
    invocation_count name inst' = S (invocation_count name inst).
Proof.
  intros H. unfold read_attr. rewrite H. eexists. split; [reflexivity|].
  cbn. split; [exact H|].
  unfold invocation_count at 1. cbn. now rewrite lookup_insert_eq.
Qed.

Lemma reset_cached name inst : cached (reset inst) !! name = None.
Proof. apply lookup_empty. Qed.

Lemma reset_invocation_count name inst :
  invocation_count name (reset inst) = invocation_count name inst.
Proof. reflexivity. Qed.
End LazyCacheProperties.

(** [FIR_estimate], whose getter raises, is computed anew by each read. *)
Example FIR_estimate_is_never_cached :
  let '(r1, s1) := read_attr (V := unit) "FIR_estimate" EventRelatedAnalyzer_FIR_estimate new_instance in
  let '(r2, s2) := read_attr "FIR_estimate" EventRelatedAnalyzer_FIR_estimate s1 in
  r1 = Raise NotImplementedError /\ r2 = Raise NotImplementedError /\
  invocation_count "FIR_estimate" s2 = 2.
Proof. vm_compute. repeat split. Qed.

(** C5: for a derived attribute whose getter returns, two reads without a
    reset in between return the same object (one identity, holding what
    the getter returned) and the second read does not run the getter, so
    that it has run at most once over both; after a reset the next read
    runs the getter once more. On a new instance the count of runs goes
    from 1 to 2. *)
Theorem C5_lazy_cache_reads {V : Type} (name : string) (v : V) (inst : instance V) :
  let '(r1, s1) := read_attr name (Ok v) inst in
  let '(r2, s2) := read_attr name (Ok v) s1 in
  let '(r3, s3) := read_attr name (Ok v) (reset s2) in
  (exists l, r1 = Ok l /\ r2 = Ok l /\ cached s2 !! name = Some l) /\
  invocation_count name s2 = invocation_count name s1 /\
  invocation_count name s2 <= S (invocation_count name inst) /\
  (exists l', r3 = Ok l' /\ objects s3 !! l' = Some v) /\
  invocation_count name s3 = S (invocation_count name s2) /\
  (inst = new_instance ->
   invocation_count name s2 = 1 /\ invocation_count name s3 = 2 /\
   objects s2 = [v] /\ r1 = Ok 0).
Proof.
  destruct (read_attr name (Ok v) inst) as [r1 s1] eqn:E1.
  destruct (read_attr name (Ok v) s1) as [r2 s2] eqn:E2.
  destruct (read_attr name (Ok v) (reset s2)) as [r3 s3] eqn:E3.
  destruct (read_attr_first name v (reset s2) (reset_cached name s2))
    as (s3' & E3' & _ & Hobj3 & Hcnt3).
  rewrite E3 in E3'. injection E3' as -> ->.
  rewrite reset_invocation_count in Hcnt3.
  assert (Hfirst : exists l, r1 = Ok l /\ cached s1 !! name = Some l /\
                     invocation_count name s1 <= S (invocation_count name inst) /\
                     (inst = new_instance ->
                      invocation_count name s1 = 1 /\ objects s1 = [v] /\ l = 0)).
  { destruct (cached inst !! name) as [l|] eqn:Ec.
    - rewrite (read_attr_cached name (Ok v) inst l Ec) in E1.
      injection E1 as <- <-. exists l.
      split; [reflexivity|]. split; [exact Ec|]. split; [lia|].
      intros ->. cbn in Ec. rewrite lookup_empty in Ec. discriminate.
    - destruct (read_attr_first name v inst Ec) as (s1' & E1' & Hc & Ho & Hn).
      rewrite E1 in E1'. injection E1' as -> ->.
      eexists. split; [reflexivity|]. split; [exact Hc|]. split; [lia|].
      intros ->. split; [|split; [|reflexivity]].
      + rewrite Hn. unfold invocation_count. cbn. now rewrite lookup_empty.
      + unfold read_attr in E1. cbn in E1. rewrite lookup_empty in E1.
        now injection E1 as <-. }
  destruct Hfirst as (l & -> & Hc1 & Hle & Hnew).
  rewrite (read_attr_cached name (Ok v) s1 l Hc1) in E2.
  injection E2 as <- <-.
  split; [now exists l|]. split; [reflexivity|]. split; [exact Hle|].
  split; [eexists; split; [reflexivity|exact Hobj3]|]. split; [exact Hcnt3|].
  intros Hi. destruct (Hnew Hi) as (H1 & Ho & ->).
  repeat split; [exact H1|lia|exact Ho].
Qed.

(** ** Arrays: indexing and assignment *)

Lemma result_foldl_inv {X Y} (f : Y -> X -> result Y) (l : list X)
    (I : nat -> Y -> Prop) (y : Y) :
  I 0 y ->
  (forall k x y, l !! k = Some x -> I k y -> exists y', f y x = Ok y' /\ I (S k) y') ->
  exists y', result_foldl f y l = Ok y' /\ I (length l) y'.
Proof.
  revert I y. induction l as [|x l IH]; intros I y H0 Hstep.
  - exists y. now split.
  - destruct (Hstep 0 x y eq_refl H0) as (y1 & Hf & H1).
    destruct (IH (fun k => I (S k)) y1 H1) as (y' & Hr & Hl).
    { intros k x' y2 Hk. apply (Hstep (S k) x' y2). exact Hk. }
    exists y'. split; [|exact Hl]. cbn. now rewrite Hf.
Qed.

Lemma for_each_inv {S X T} (l : list X) (body : X -> T -> stM S T)
    (I : nat -> T -> S -> Prop) (t : T) (s : S) :
  I 0 t s ->
  (forall k x t s, l !! k = Some x -> I k t s ->
     exists t' s', body x t s = (Ok t', s') /\ I (Datatypes.S k) t' s') ->
  exists t' s', for_each l body t s = (Ok t', s') /\ I (length l) t' s'.
Proof.
  revert I t s. induction l as [|x l IH]; intros I t s H0 Hstep.
  - exists t, s. now split.
  - destruct (Hstep 0 x t s eq_refl H0) as (t1 & s1 & Hb & H1).
    destruct (IH (fun k => I (Datatypes.S k)) t1 s1 H1) as (t' & s' & Hr & Hl).
    { intros k x' t2 s2 Hk. apply (Hstep (Datatypes.S k) x' t2 s2). exact Hk. }
    exists t', s'. split; [|exact Hl].
    cbn. unfold mbind, stM_bind. now rewrite Hb.
Qed.

Lemma result_mapM_Ok {X Y} (f : X -> result Y) (g : X -> Y) (l : list X) :
  (forall x, x ∈ l -> f x = Ok (g x)) ->
  result_mapM f l = Ok (map g l).
Proof.
  induction l as [|x l IH]; intros H; [reflexivity|].
  cbn. rewrite (H x) by apply list_elem_of_here.
  cbn. rewrite IH; [reflexivity|].
  intros x' Hx'. apply H. now apply list_elem_of_further.
Qed.

Lemma xrange_lookup (a b k x : nat) :
  xrange a b !! k = Some x -> x = a + k /\ a + k < b.
Proof.
  unfold xrange. intros H. apply lookup_seq in H. lia.
Qed.

Lemma xrange_length (a b : nat) : length (xrange a b) = b - a.
Proof. apply length_seq. Qed.

Section TensorProperties.
Context {A : Type}.
Implicit Types (T : list (list (list A))) (v : list A).

Lemma has_shape3_square T n F : has_shape3 n n F T -> square T n F.
Proof.
  intros [Hn Hrows] i j Hi Hj. unfold cell.
  destruct (lookup_lt_is_Some_2 T i) as [row Hrow]; [lia|].
  rewrite Hrow. cbn.
  destruct (proj1 (Forall_lookup _ _) Hrows i row Hrow) as [Hm Hcells].
  destruct (lookup_lt_is_Some_2 row j) as [v Hv]; [lia|].
  exists v. split; [exact Hv|].
  exact (proj1 (Forall_lookup _ _) Hcells j v Hv).
Qed.

Lemma zeros3_square (z : A) n F : square (zeros3 z n n F) n F.
Proof.
  intros i j Hi Hj. unfold cell, zeros3.
  rewrite lookup_replicate_2 by exact Hi. cbn.
  rewrite lookup_replicate_2 by exact Hj.
  eexists. split; [reflexivity|]. apply length_replicate.
Qed.

Lemma getitem2_cell T i j v : cell T i j = Some v -> getitem2 T i j = Ok v.
Proof.
  unfold cell, getitem2. destruct (T !! i) as [row|]; [|discriminate].
  cbn. now intros ->.
Qed.

Lemma getitem2_square T n F i j :
  square T n F -> i < n -> j < n ->
  getitem2 T i j = Ok (cell_or_nil T i j) /\ length (cell_or_nil T i j) = F /\
  cell T i j = Some (cell_or_nil T i j).
Proof.
  intros Hsq Hi Hj. destruct (Hsq i j Hi Hj) as (v & Hv & Hlen).
  unfold cell_or_nil. rewrite Hv. cbn. repeat split; [|exact Hlen].
  now apply getitem2_cell.
Qed.

(** An assignment of a row of the right length stores it, and leaves
    every other row as it was. *)
Lemma setitem2_cell T i j v old :
  cell T i j = Some old -> length v = length old ->
  exists T', setitem2 T i j v = Ok T' /\
    cell T' i j = Some v /\
    forall i' j', (i', j') <> (i, j) -> cell T' i' j' = cell T i' j'.
Proof.
  unfold cell, setitem2. intros Hc Hlen.
  destruct (T !! i) as [row|] eqn:Hrow; [|discriminate]. cbn in Hc.
  rewrite Hc. unfold broadcast_to. rewrite Hlen, Nat.eqb_refl. cbn.
  eexists. split; [reflexivity|].
  assert (Hi : i < length T) by (now apply lookup_lt_Some in Hrow).
  assert (Hj : j < length row) by (now apply lookup_lt_Some in Hc).
  split.
  - rewrite list_lookup_insert_eq by exact Hi. cbn.
    now rewrite list_lookup_insert_eq by exact Hj.
  - intros i' j' Hne. destruct (decide (i' = i)) as [->|Hi'].
    + rewrite list_lookup_insert_eq by exact Hi. rewrite Hrow. cbn.
      rewrite list_lookup_insert_ne; [reflexivity|]. congruence.
    + now rewrite list_lookup_insert_ne by congruence.
Qed.

Lemma setitem2_square T n F i j v :
  square T n F -> i < n -> j < n -> length v = F ->
  exists T', setitem2 T i j v = Ok T' /\ square T' n F /\
    cell T' i j = Some v /\
    forall i' j', (i', j') <> (i, j) -> cell T' i' j' = cell T i' j'.
Proof.
  intros Hsq Hi Hj Hlen. destruct (Hsq i j Hi Hj) as (old & Hold & Holdlen).
  destruct (setitem2_cell T i j v old Hold) as (T' & Hset & Hnew & Hother);
    [congruence|].
  exists T'. split; [exact Hset|]. split; [|now split].
  intros i' j' Hi' Hj'. destruct (decide ((i', j') = (i, j))) as [[= -> ->]|Hne].
  - exists v. now split.
  - rewrite (Hother i' j' Hne). now apply Hsq.
Qed.

Lemma entry_cell T i j f : entry T i j f = cell T i j ≫= (.!! f).
Proof. unfold entry, cell. now destruct (T !! i). Qed.

Lemma tril_indices_elem (n r c : nat) :
  (r, c) ∈ tril_indices n <-> c < r < n.
Proof.
  unfold tril_indices. rewrite list_elem_of_In, in_flat_map. split.
  - intros (r' & Hr' & Hin). apply in_seq in Hr'.
    apply in_map_iff in Hin. destruct Hin as (c' & [= -> ->] & Hc').
    apply in_seq in Hc'. lia.
  - intros H. exists r. split; [apply in_seq; lia|].
    apply in_map_iff. exists c. split; [reflexivity|]. apply in_seq. lia.
Qed.

(** The mirroring step: the upper triangle and the diagonal stay, and
    the row below the diagonal at [(j, i)] becomes the image of the row
    at [(i, j)]. *)
Lemma mirror_lower_spec (cj : A -> A) T n F :
  square T n F ->
  exists T', mirror_lower cj n T = Ok T' /\ square T' n F /\
    (forall i j, i <= j -> cell T' i j = cell T i j) /\
    (forall i j, i < j -> j < n ->
       cell T' j i = Some (map cj (cell_or_nil T i j))).
Proof.
  intros Hsq. unfold mirror_lower.
  rewrite (result_mapM_Ok _ (fun p => map cj (cell_or_nil T p.2 p.1))).
  2:{ intros [r c] Hin. apply tril_indices_elem in Hin. cbn.
      destruct (getitem2_square T n F c r Hsq) as (-> & _); [lia|lia|].
      reflexivity. }
  cbn.
  destruct (result_foldl_inv
              (fun T (pv : nat * nat * list A) =>
                 let '((r, c), v) := pv in setitem2 T r c v)
              (zip (tril_indices n)
                   (map (fun p => map cj (cell_or_nil T p.2 p.1)) (tril_indices n)))
              (fun k T' =>
                 square T' n F /\
                 (forall i j, i <= j -> cell T' i j = cell T i j) /\
                 (forall k' r c, k' < k -> tril_indices n !! k' = Some (r, c) ->
                    cell T' r c = Some (map cj (cell_or_nil T c r))))
              T) as (T' & Hfold & Hsq' & Hupper & Hlower).
  - split; [exact Hsq|]. split; [reflexivity|]. intros; lia.
  - intros k [[r c] v] T1 Hk (Hsq1 & Hup1 & Hlow1).
    apply lookup_zip_with_Some in Hk.
    destruct Hk as (p & v' & [= <- <-] & Hp & Hv').
    rewrite list_lookup_fmap, Hp in Hv'. cbn in Hv'. injection Hv' as <-.
    assert (Hrc : c < r < n).
    { apply tril_indices_elem. apply list_elem_of_lookup. now exists k. }
    destruct (setitem2_square T1 n F r c (map cj (cell_or_nil T c r)) Hsq1)
      as (T2 & Hset & Hsq2 & Hnew & Hother); [lia|lia| |].
    { rewrite length_map.
      destruct (getitem2_square T n F c r Hsq) as (_ & Hlen & _); [lia|lia|].
      exact Hlen. }
    exists T2. split; [exact Hset|]. split; [exact Hsq2|]. split.
    + intros i j Hij. rewrite Hother; [now apply Hup1|].
      intros [= -> ->]. lia.
    + intros k' r' c' Hk' Hp'.
      destruct (decide ((r', c') = (r, c))) as [[= -> ->]|Hne]; [exact Hnew|].
      rewrite (Hother r' c' Hne). apply (Hlow1 k'); [|exact Hp'].
      destruct (decide (k' = k)) as [->|]; [|lia].
      rewrite Hp in Hp'. congruence.
  - exists T'. split; [exact Hfold|]. split; [exact Hsq'|]. split; [exact Hupper|].
    intros i j Hij Hj.
    assert (Hin : (j, i) ∈ tril_indices n) by (apply tril_indices_elem; lia).
    apply list_elem_of_lookup in Hin. destruct Hin as [k Hk].
    apply (Hlower k); [|exact Hk].
    rewrite length_zip_with, length_map, Nat.min_id.
    now apply lookup_lt_Some in Hk.
Qed.
End TensorProperties.

(** ** C1: coherence and coherency over the upper triangle *)

Lemma upper_pairs_take_length (n k : nat) :
  k <= n ->
  2 * length (flat_map (fun i => map (pair i) (xrange i n)) (seq 0 k))
  = k * (2 * n + 1 - k).
Proof.
  induction k as [|k IH]; intros Hk; [reflexivity|].
  rewrite seq_S, flat_map_app, length_app. cbn [flat_map Nat.add].
  rewrite app_nil_r, length_map, xrange_length.
  specialize (IH ltac:(lia)). nia.
Qed.

(** One estimator call for each pair of the upper triangle, diagonal
    included: [n * (n + 1) / 2] of them. *)
Lemma upper_pairs_length (n : nat) : length (upper_pairs n) = n * (n + 1) / 2.
Proof.
  unfold upper_pairs, xrange at 2. rewrite Nat.sub_0_r.
  pose proof (upper_pairs_take_length n n (Nat.le_refl n)) as H.
  apply Nat.div_unique_exact; [lia|]. rewrite H. nia.
Qed.

Lemma upper_pairs_elem (n i j : nat) :
  (i, j) ∈ upper_pairs n <-> i <= j < n.
Proof.
  unfold upper_pairs, xrange. rewrite list_elem_of_In, in_flat_map. split.
  - intros (i' & Hi' & Hin). apply in_seq in Hi'.
    apply in_map_iff in Hin. destruct Hin as (j' & [= -> ->] & Hj').
    apply in_seq in Hj'. lia.
  - intros H. exists i. split; [apply in_seq; lia|].
    apply in_map_iff. exists j. split; [reflexivity|]. apply in_seq. lia.
Qed.

Lemma upper_pairs_Forall (n : nat) :
  Forall (fun ij : nat * nat => ij.1 <= ij.2 < n) (upper_pairs n).
Proof.
  apply Forall_forall. intros [i j] Hin. now apply upper_pairs_elem.
Qed.

Section UpperTriangle.
Context {C A : Type}.
Variables (cj : A -> A) (zero : A) (calc : list C -> list C -> list C -> list A).
Variables (spectrum : list (list (list C))) (n F : nat).
Hypothesis Hsp : square spectrum n F.
Hypothesis Hcalc : forall a b c,
  length a = F -> length b = F -> length c = F -> length (calc a b c) = F.

(** What the estimator returns for the pair [(i, j)]. *)
Local Abbreviation est i j :=
  (calc (cell_or_nil spectrum i j) (cell_or_nil spectrum i i)
        (cell_or_nil spectrum j j)).

(** The body of the inner loop. *)
Local Abbreviation fill_pair i := (fun (j : nat) (T : list (list (list A))) =>
  sij ← st_lift (getitem2 spectrum i j);
  sii ← st_lift (getitem2 spectrum i i);
  sjj ← st_lift (getitem2 spectrum j j);
  v ← invoke (pair i%nat j%nat) (calc sij sii sjj);
  st_lift (setitem2 T i j v)).

Lemma est_length (i j : nat) : i < n -> j < n -> length (est i j) = F.
Proof.
  intros Hi Hj. apply Hcalc.
  - now destruct (getitem2_square spectrum n F i j Hsp Hi Hj) as (_ & H & _).
  - now destruct (getitem2_square spectrum n F i i Hsp Hi Hi) as (_ & H & _).
  - now destruct (getitem2_square spectrum n F j j Hsp Hj Hj) as (_ & H & _).
Qed.

Lemma fill_pair_spec (i j : nat) (T : list (list (list A))) (calls : list (nat * nat)) :
  square T n F -> i < n -> j < n ->
  exists T', fill_pair i j T calls = (Ok T', calls ++ [(i, j)]) /\
    square T' n F /\ cell T' i j = Some (est i j) /\
    forall i' j', (i', j') <> (i, j) -> cell T' i' j' = cell T i' j'.
Proof.
  intros Hsq Hi Hj.
  destruct (setitem2_square T n F i j (est i j) Hsq Hi Hj (est_length i j Hi Hj))
    as (T' & Hset & Hsq' & Hnew & Hother).
  exists T'. split; [|now repeat split].
  unfold mbind, stM_bind, st_lift, invoke.
  rewrite (proj1 (getitem2_square spectrum n F i j Hsp Hi Hj)).
  rewrite (proj1 (getitem2_square spectrum n F i i Hsp Hi Hi)).
  rewrite (proj1 (getitem2_square spectrum n F j j Hsp Hj Hj)).
  now rewrite Hset.
Qed.

Lemma fill_row_spec (i : nat) (T : list (list (list A))) (calls : list (nat * nat)) :
  square T n F -> i < n ->
  exists T', for_each (xrange i n) (fill_pair i) T calls
             = (Ok T', calls ++ map (pair i) (xrange i n)) /\
    square T' n F /\
    (forall j, i <= j -> j < n -> cell T' i j = Some (est i j)) /\
    (forall i' j', i' <> i -> cell T' i' j' = cell T i' j').
Proof.
  intros Hsq Hi.
  destruct (for_each_inv (xrange i n) (fill_pair i)
              (fun k T' s =>
                 square T' n F /\
                 s = calls ++ map (pair i) (take k (xrange i n)) /\
                 (forall j, i <= j -> j < i + k -> cell T' i j = Some (est i j)) /\
                 (forall i' j', i' <> i -> cell T' i' j' = cell T i' j'))
              T calls) as (T' & s' & Hrun & Hsq' & Hs' & Hrow & Hrest).
  - split; [exact Hsq|]. split; [now rewrite app_nil_r|]. split; [intros; lia|].
    reflexivity.
  - intros k j T1 s1 Hk (Hsq1 & -> & Hrow1 & Hrest1).
    pose proof (xrange_lookup _ _ _ _ Hk) as [-> Hlt].
    destruct (fill_pair_spec i (i + k) T1
                (calls ++ map (pair i) (take k (xrange i n))) Hsq1 Hi Hlt)
      as (T2 & Hstep & Hsq2 & Hnew & Hother).
    exists T2. eexists. split; [exact Hstep|]. split; [exact Hsq2|]. split.
    { rewrite (take_S_r _ _ _ Hk), map_app, app_assoc. reflexivity. }
    split.
    + intros j Hij Hj. destruct (decide (j = i + k)) as [->|Hne]; [exact Hnew|].
      rewrite Hother by congruence. apply Hrow1; lia.
    + intros i' j' Hi'. rewrite Hother by congruence. now apply Hrest1.
  - rewrite xrange_length in Hrow. rewrite firstn_all in Hs'.
    exists T'. split; [now rewrite Hrun, Hs'|]. split; [exact Hsq'|].
    split; [|exact Hrest]. intros j Hij Hj. apply Hrow; lia.
Qed.

Lemma fill_upper_spec (T : list (list (list A))) (calls : list (nat * nat)) :
  square T n F ->
  exists T', for_each (xrange 0 n)
               (fun i T => for_each (xrange i n) (fill_pair i) T) T calls
             = (Ok T', calls ++ upper_pairs n) /\
    square T' n F /\
    forall i j, i <= j -> j < n -> cell T' i j = Some (est i j).
Proof.
  intros Hsq.
  destruct (for_each_inv (xrange 0 n)
              (fun i T => for_each (xrange i n) (fill_pair i) T)
              (fun k T' s =>
                 square T' n F /\
                 s = calls ++ flat_map (fun i => map (pair i) (xrange i n))
                                       (take k (xrange 0 n)) /\
                 (forall i j, i < k -> i <= j -> j < n ->
                    cell T' i j = Some (est i j)))
              T calls) as (T' & s' & Hrun & Hsq' & Hs' & Hcells).
  - split; [exact Hsq|]. split; [now rewrite app_nil_r|]. intros; lia.
  - intros k i T1 s1 Hk (Hsq1 & -> & Hcells1).
    pose proof (xrange_lookup _ _ _ _ Hk) as [-> Hlt]. cbn in Hlt.
    destruct (fill_row_spec k T1
                (calls ++ flat_map (fun i => map (pair i) (xrange i n))
                                   (take k (xrange 0 n))) Hsq1 Hlt)
      as (T2 & Hstep & Hsq2 & Hrow & Hrest).
    exists T2. eexists. split; [exact Hstep|]. split; [exact Hsq2|]. split.
    { rewrite (take_S_r _ _ _ Hk), flat_map_app. cbn [flat_map].
      now rewrite app_nil_r, app_assoc. }
    intros i j Hi Hij Hj. destruct (decide (i = k)) as [->|Hne].
    + now apply Hrow.
    + rewrite Hrest by exact Hne. apply Hcells1; lia.
  - rewrite xrange_length, Nat.sub_0_r in Hcells. rewrite firstn_all in Hs'.
    exists T'. split; [now rewrite Hrun, Hs'|]. split; [exact Hsq'|].
    intros i j Hij Hj. apply Hcells; lia.
Qed.

(** The loops and the mirroring together. *)
Lemma fill_and_mirror_spec (calls : list (nat * nat)) :
  exists T,
    (T1 ← for_each (xrange 0 n)
            (fun i T => for_each (xrange i n) (fill_pair i) T) (zeros3 zero n n F);
     st_lift (mirror_lower cj n T1)) calls
    = (Ok T, calls ++ upper_pairs n) /\
    square T n F /\
    (forall i j, i <= j -> j < n -> cell T i j = Some (est i j)) /\
    (forall i j, i < j -> j < n -> cell T j i = Some (map cj (est i j))).
Proof.
  destruct (fill_upper_spec (zeros3 zero n n F) calls (zeros3_square zero n F))
    as (T1 & Hfill & Hsq1 & Hupper).
  destruct (mirror_lower_spec cj T1 n F Hsq1) as (T & Hmirror & Hsq & Hkeep & Hlow).
  exists T. split.
  { unfold mbind at 1, stM_bind at 1. rewrite Hfill. unfold st_lift.
    now rewrite Hmirror. }
  split; [exact Hsq|]. split.
  - intros i j Hij Hj. rewrite Hkeep by exact Hij. now apply Hupper.
  - intros i j Hij Hj. rewrite (Hlow i j Hij Hj).
    unfold cell_or_nil at 1. rewrite (Hupper i j) by lia. reflexivity.
Qed.
End UpperTriangle.

Lemma mirrored_entries {A : Type} (cj : A -> A) (T : list (list (list A)))
    (i j f : nat) (v : list A) :
  cell T i j = Some v -> cell T j i = Some (map cj v) -> f < length v ->
  exists x, entry T i j f = Some x /\ entry T j i f = Some (cj x).
Proof.
  intros Hij Hji Hf. destruct (lookup_lt_is_Some_2 v f Hf) as [x Hx].
  exists x. rewrite !entry_cell, Hij, Hji. cbn. split; [exact Hx|].
  change (map cj v !! f) with ((cj <$> v) !! f).
  now rewrite list_lookup_fmap, Hx.
Qed.

(** C1: on a spectrum of shape [(n, n, F)], and with estimators that
    return one value for each frequency bin, [coherence] and [coherency]
    call their estimator once for each pair [i <= j], [n * (n + 1) / 2]
    times, and never for a pair below the diagonal; the entries on and
    above the diagonal are what the estimator returned for [spectrum[i][j]],
    [spectrum[i][i]] and [spectrum[j][j]]; and for every [i <= j] and every
    frequency bin [f], [coherency[j, i, f]] is the conjugate of
    [coherency[i, j, f]] and [coherence[j, i, f]] is [coherence[i, j, f]].
    Below the diagonal this is the mirroring; on the diagonal it says that
    the coherency of a channel with itself is real, which is asked of the
    estimator. *)
Theorem C1_dense_coherence_symmetry {C R : Type} (conj : C -> C) (czero : C) (rzero : R)
    (coherence_calculate : list C -> list C -> list C -> list R)
    (coherency_calculate : list C -> list C -> list C -> list C)
    (self : CoherenceAnalyzer) (spectrum : list (list (list C))) (F n : nat) :
  shape_first (ca_data self) = Ok n ->
  has_shape3 n n F spectrum ->
  (forall a b c, length a = F -> length b = F -> length c = F ->
     length (coherence_calculate a b c) = F) ->
  (forall a b c, length a = F -> length b = F -> length c = F ->
     length (coherency_calculate a b c) = F) ->
  (forall i, i < n ->
     map conj (coherency_calculate (cell_or_nil spectrum i i)
                 (cell_or_nil spectrum i i) (cell_or_nil spectrum i i))
     = coherency_calculate (cell_or_nil spectrum i i)
         (cell_or_nil spectrum i i) (cell_or_nil spectrum i i)) ->
  exists coherence coherency,
    CoherenceAnalyzer_coherence rzero coherence_calculate self spectrum F []
    = (Ok coherence, upper_pairs n) /\
    CoherenceAnalyzer_coherency conj czero coherency_calculate self spectrum F []
    = (Ok coherency, upper_pairs n) /\
    length (upper_pairs n) = n * (n + 1) / 2 /\
    Forall (fun ij : nat * nat => ij.1 <= ij.2 < n) (upper_pairs n) /\
    forall i j, i <= j -> j < n ->
      cell coherence i j
      = Some (coherence_calculate (cell_or_nil spectrum i j)
                (cell_or_nil spectrum i i) (cell_or_nil spectrum j j)) /\
      cell coherency i j
      = Some (coherency_calculate (cell_or_nil spectrum i j)
                (cell_or_nil spectrum i i) (cell_or_nil spectrum j j)) /\
      forall f, f < F ->
        (exists x, entry coherency i j f = Some x /\
                   entry coherency j i f = Some (conj x)) /\
        (exists y, entry coherence i j f = Some y /\
                   entry coherence j i f = Some y).
Proof.
  intros Hn Hshape Hlen_ce Hlen_cy Hdiag.
  pose proof (has_shape3_square spectrum n F Hshape) as Hsp.
  destruct (fill_and_mirror_spec (fun x => x) rzero coherence_calculate
              spectrum n F Hsp Hlen_ce []) as (Tce & Hrun_ce & _ & Hup_ce & Hlow_ce).
  destruct (fill_and_mirror_spec conj czero coherency_calculate
              spectrum n F Hsp Hlen_cy []) as (Tcy & Hrun_cy & _ & Hup_cy & Hlow_cy).
  exists Tce, Tcy. split; [|split; [|split; [|split]]].
  - unfold CoherenceAnalyzer_coherence.
    unfold mbind at 1, stM_bind at 1, st_lift at 1. rewrite Hn. exact Hrun_ce.
  - unfold CoherenceAnalyzer_coherency.
    unfold mbind at 1, stM_bind at 1, st_lift at 1. rewrite Hn. exact Hrun_cy.
  - apply upper_pairs_length.
  - apply upper_pairs_Forall.
  - intros i j Hij Hj.
    split; [now apply Hup_ce|]. split; [now apply Hup_cy|].
    intros f Hf. split.
    + apply (mirrored_entries conj Tcy i j f _ (Hup_cy i j Hij Hj)).
      * destruct (decide (i = j)) as [->|Hne].
        -- rewrite (Hdiag j Hj). now apply Hup_cy.
        -- apply Hlow_cy; lia.
      * rewrite (est_length coherency_calculate spectrum n F Hsp Hlen_cy i j); lia.
    + destruct (mirrored_entries (fun x => x) Tce i j f _ (Hup_ce i j Hij Hj))
        as (y & Hy & Hy').
      * destruct (decide (i = j)) as [->|Hne].
        -- rewrite map_id. now apply Hup_ce.
        -- apply Hlow_ce; lia.
      * rewrite (est_length coherence_calculate spectrum n F Hsp Hlen_ce i j); lia.
      * now exists y.
Qed.

(** Two channels and two frequency bins over the Gaussian integers, with
    a stub estimator that returns the cross-spectrum it is given. *)
Lemma C1_dense_coherence_symmetry_witness :
  let conj := fun z : Z * Z => (z.1, (- z.2)%Z) in
  let self := mkCoherenceAnalyzer (mk_ndarray [2; 4] [1; 2; 3; 4; 4; 3; 2; 1]%Q)
                (VNum 1) [] 0 in
  let spectrum := [ [ [(5, 0); (6, 0)]; [(1, 2); (3, -1)] ];
                    [ [(1, -2); (3, 1)]; [(7, 0); (8, 0)] ] ]%Z in
  exists coherence coherency,
    CoherenceAnalyzer_coherence 0%Z (fun fxy _ _ => map fst fxy) self spectrum 2 []
    = (Ok coherence, [(0, 0); (0, 1); (1, 1)]) /\
    CoherenceAnalyzer_coherency conj (0, 0)%Z (fun fxy _ _ => fxy) self spectrum 2 []
    = (Ok coherency, [(0, 0); (0, 1); (1, 1)]) /\
    entry coherency 0 1 1 = Some (3, -1)%Z /\
    entry coherency 1 0 1 = Some (3, 1)%Z /\
    entry coherence 1 0 1 = Some 3%Z.
Proof.
  intros conj self spectrum.
  destruct (C1_dense_coherence_symmetry conj (0, 0)%Z 0%Z
              (fun fxy _ _ => map fst fxy) (fun fxy _ _ => fxy) self spectrum 2 2)
    as (coherence & coherency & Hce & Hcy & _).
  - reflexivity.
  - split; [reflexivity|]. repeat constructor.
  - intros a b c Ha _ _. now rewrite length_map.
  - intros a b c Ha _ _. exact Ha.
  - intros i Hi. destruct i as [|[|i]]; [reflexivity|reflexivity|lia].
  - exists coherence, coherency. split; [exact Hce|]. split; [exact Hcy|].
    injection Hce as <-. injection Hcy as <-. repeat split.
Defined.

(** ** C7: the phase of a pair and of its mirror image *)

Section Phase.
Context {C R : Type}.
Variables (conj : C -> C) (P : list C -> list R).
Variables (spectrum : list (list (list C))) (n F : nat).
Hypothesis Hsp : square spectrum n F.
Hypothesis HP : forall v, length v = F -> length (P v) = F.

(** The body of the inner loop. *)
Local Abbreviation phase_pair i := (fun (phase : list (list (list R))) (j : nat) =>
  sij ← getitem2 spectrum i j;
  phase ← setitem2 phase i j (P sij);
  sij ← getitem2 spectrum i j;
  setitem2 phase j i (P (map conj sij))).

Lemma phase_pair_spec (i j : nat) (T : list (list (list R))) :
  square T n F -> i < n -> j < n ->
  exists T', phase_pair i T j = Ok T' /\ square T' n F /\
    cell T' j i = Some (P (map conj (cell_or_nil spectrum i j))) /\
    (i <> j -> cell T' i j = Some (P (cell_or_nil spectrum i j))) /\
    forall i' j', (i', j') <> (i, j) -> (i', j') <> (j, i) ->
      cell T' i' j' = cell T i' j'.
Proof.
  intros Hsq Hi Hj.
  destruct (getitem2_square spectrum n F i j Hsp Hi Hj) as (Hget & Hlen & _).
  destruct (setitem2_square T n F i j (P (cell_or_nil spectrum i j)) Hsq Hi Hj)
    as (T1 & Hset1 & Hsq1 & Hnew1 & Hother1); [now apply HP|].
  destruct (setitem2_square T1 n F j i (P (map conj (cell_or_nil spectrum i j)))
              Hsq1 Hj Hi)
    as (T2 & Hset2 & Hsq2 & Hnew2 & Hother2);
    [apply HP; now rewrite length_map|].
  exists T2. split.
  { rewrite Hget. cbn. rewrite Hset1. cbn. exact Hset2. }
  split; [exact Hsq2|]. split; [exact Hnew2|]. split.
  - intros Hne. rewrite Hother2 by congruence. exact Hnew1.
  - intros i' j' H1 H2. rewrite Hother2 by exact H2. now apply Hother1.
Qed.

Lemma phase_row_spec (i : nat) (T : list (list (list R))) :
  square T n F -> i < n ->
  exists T', result_foldl (phase_pair i) T (xrange i n) = Ok T' /\
    square T' n F /\
    (forall j, i <= j -> j < n ->
       cell T' j i = Some (P (map conj (cell_or_nil spectrum i j))) /\
       (i <> j -> cell T' i j = Some (P (cell_or_nil spectrum i j)))) /\
    (forall i' j', ~ (i' = i /\ i <= j') -> ~ (j' = i /\ i <= i') ->
       cell T' i' j' = cell T i' j').
Proof.
  intros Hsq Hi.
  destruct (result_foldl_inv (phase_pair i) (xrange i n)
              (fun k T' =>
                 square T' n F /\
                 (forall j, i <= j -> j < i + k ->
                    cell T' j i = Some (P (map conj (cell_or_nil spectrum i j))) /\
                    (i <> j -> cell T' i j = Some (P (cell_or_nil spectrum i j)))) /\
                 (forall i' j', ~ (i' = i /\ i <= j') -> ~ (j' = i /\ i <= i') ->
                    cell T' i' j' = cell T i' j'))
              T) as (T' & Hrun & Hsq' & Hrow & Hrest).
  - split; [exact Hsq|]. split; [intros; lia|]. reflexivity.
  - intros k j T1 Hk (Hsq1 & Hrow1 & Hrest1).
    pose proof (xrange_lookup _ _ _ _ Hk) as [-> Hlt].
    destruct (phase_pair_spec i (i + k) T1 Hsq1 Hi Hlt)
      as (T2 & Hstep & Hsq2 & Hlow & Hup & Hother).
    exists T2. split; [exact Hstep|]. split; [exact Hsq2|]. split.
    + intros j Hij Hj. destruct (decide (j = i + k)) as [->|Hne]; [now split|].
      destruct (Hrow1 j Hij ltac:(lia)) as [Hl Hu]. split.
      * rewrite Hother; [exact Hl| |]; intros Heq; inversion Heq; lia.
      * intros Hd. rewrite Hother; [now apply Hu| |]; intros Heq; inversion Heq; lia.
    + intros i' j' H1 H2. rewrite Hother; [now apply Hrest1| |];
        intros Heq; inversion Heq; subst; [apply H1|apply H2]; lia.
  - rewrite xrange_length in Hrow.
    exists T'. split; [exact Hrun|]. split; [exact Hsq'|]. split; [|exact Hrest].
    intros j Hij Hj. apply Hrow; lia.
Qed.

Lemma phase_loops_spec (T : list (list (list R))) :
  square T n F ->
  exists T',
    result_foldl (fun phase i => result_foldl (phase_pair i) phase (xrange i n))
                 T (xrange 0 n) = Ok T' /\
    forall i j, i <= j -> j < n ->
      cell T' j i = Some (P (map conj (cell_or_nil spectrum i j))) /\
      (i <> j -> cell T' i j = Some (P (cell_or_nil spectrum i j))).
Proof.
  intros Hsq.
  destruct (result_foldl_inv
              (fun phase i => result_foldl (phase_pair i) phase (xrange i n))
              (xrange 0 n)
              (fun k T' =>
                 square T' n F /\
                 forall i j, i < k -> i <= j -> j < n ->
                   cell T' j i = Some (P (map conj (cell_or_nil spectrum i j))) /\
                   (i <> j -> cell T' i j = Some (P (cell_or_nil spectrum i j))))
              T) as (T' & Hrun & Hsq' & Hcells).
  - split; [exact Hsq|]. intros; lia.
  - intros k i T1 Hk (Hsq1 & Hcells1).
    pose proof (xrange_lookup _ _ _ _ Hk) as [-> Hlt]. cbn in Hlt.
    destruct (phase_row_spec k T1 Hsq1 Hlt) as (T2 & Hstep & Hsq2 & Hrow & Hrest).
    exists T2. split; [exact Hstep|]. split; [exact Hsq2|].
    intros i j Hi Hij Hj. destruct (decide (i = k)) as [->|Hne]; [now apply Hrow|].
    destruct (Hcells1 i j ltac:(lia) Hij Hj) as [Hl Hu]. split.
    + rewrite Hrest; [exact Hl|lia|lia].
    + intros Hd. rewrite Hrest; [now apply Hu|lia|lia].
  - rewrite xrange_length, Nat.sub_0_r in Hcells.
    exists T'. split; [exact Hrun|]. intros i j Hij Hj. apply Hcells; lia.
Qed.
End Phase.

(** C7: on a spectrum of shape [(n, n, F)], and with a phase-angle
    primitive that returns one angle for each frequency bin, for every
    pair [i <= j] the row [phase[j, i]] is the phase-angle spectrum of the
    conjugated cross-spectrum [conj(spectrum[i, j])], computed as such and
    not by negation, and [phase[i, j]] is the phase-angle spectrum of
    [spectrum[i, j]]: for [i < j] always, and on the diagonal, which the
    loop writes twice and leaves with the phase of the conjugate, when the
    auto-spectrum [spectrum[i, i]] is its own conjugate. *)
Theorem C7_phase_of_conjugated_spectrum {C R : Type} (conj : C -> C) (rzero : R)
    (coherency_phase_spectrum_calculate : list C -> list R)
    (self : CoherenceAnalyzer) (spectrum : list (list (list C))) (F n : nat) :
  shape_first (ca_data self) = Ok n ->
  has_shape3 n n F spectrum ->
  (forall v, length v = F -> length (coherency_phase_spectrum_calculate v) = F) ->
  exists phase,
    CoherenceAnalyzer_phase conj rzero coherency_phase_spectrum_calculate
      self spectrum F = Ok phase /\
    forall i j, i <= j -> j < n ->
      cell phase j i
      = Some (coherency_phase_spectrum_calculate
                (map conj (cell_or_nil spectrum i j))) /\
      (i < j \/ map conj (cell_or_nil spectrum i i) = cell_or_nil spectrum i i ->
       cell phase i j
       = Some (coherency_phase_spectrum_calculate (cell_or_nil spectrum i j))).
Proof.
  intros Hn Hshape HP.
  pose proof (has_shape3_square spectrum n F Hshape) as Hsp.
  destruct (phase_loops_spec conj coherency_phase_spectrum_calculate spectrum n F
              Hsp HP (zeros3 rzero n n F) (zeros3_square rzero n F))
    as (T & Hrun & Hcells).
  exists T. split.
  - unfold CoherenceAnalyzer_phase. rewrite Hn. exact Hrun.
  - intros i j Hij Hj. destruct (Hcells i j Hij Hj) as [Hlow Hup].
    split; [exact Hlow|]. intros [Hlt|Hreal]; [apply Hup; lia|].
    destruct (decide (i = j)) as [->|Hne]; [|now apply Hup].
    rewrite Hlow. now rewrite Hreal.
Qed.

(** Two channels and two frequency bins over the Gaussian integers; the
    stub primitive reads the imaginary parts. *)
Lemma C7_phase_of_conjugated_spectrum_witness :
  let conj := fun z : Z * Z => (z.1, (- z.2)%Z) in
  let self := mkCoherenceAnalyzer (mk_ndarray [2; 4] [1; 2; 3; 4; 4; 3; 2; 1]%Q)
                (VNum 1) [] 0 in
  let spectrum := [ [ [(5, 0); (6, 0)]; [(1, 2); (3, -1)] ];
                    [ [(1, -2); (3, 1)]; [(7, 0); (8, 0)] ] ]%Z in
  exists phase,
    CoherenceAnalyzer_phase conj 0%Z (map snd) self spectrum 2 = Ok phase /\
    cell phase 0 1 = Some [2; -1]%Z /\
    cell phase 1 0 = Some [-2; 1]%Z /\
    cell phase 0 0 = Some [0; 0]%Z.
Proof.
  intros conj self spectrum.
  destruct (C7_phase_of_conjugated_spectrum conj 0%Z (map snd) self spectrum 2 2)
    as (phase & Hrun & Hcells).
  - reflexivity.
  - split; [reflexivity|]. repeat constructor.
  - intros v Hv. now rewrite length_map.
  - exists phase. split; [exact Hrun|].
    destruct (Hcells 0 1 ltac:(lia) ltac:(lia)) as [Hlow Hup].
    destruct (Hcells 0 0 ltac:(lia) ltac:(lia)) as [_ Hdiag].
    split; [apply Hup; left; lia|]. split; [exact Hlow|].
    apply Hdiag. right. reflexivity.
Defined.

(* ===================================================================== *)
(** * Further properties of the module *)
(* ===================================================================== *)

(** ** UniformTime *)



(** X6: The validator accepts a series exactly when its time array is
    one-dimensional and as long as the last axis of the data; every other
    series makes it raise. *)
Theorem validate_dimensionality_iff_dimensions_agree (ts : NonUniformTimeSeries) :
  _validate_dimensionality ts = Ok tt <-> dimensions_agree ts.
Proof. exact (_validate_dimensionality_Ok ts). Qed.

(** X2: A call that does not give exactly two of the sampling interval, the
    sampling rate, the length and the duration, or that gives the interval
    together with the rate, raises the "Invalid time specification" error,
    before anything else is looked at (the time unit included). *)
Theorem UniformTime_new_invalid_specification (length : option Z)
    (duration : option time_data) (sampling_rate : option rate_arg)
    (sampling_interval : option Q) (t0 : Q) (time_unit : option string) :
  two_of_four (is_not_None sampling_interval) (is_not_None sampling_rate)
              (is_not_None length) (is_not_None duration) = false ->
  UniformTime_new length duration sampling_rate sampling_interval t0 time_unit
  = Raise (ValueError invalid_time_specification_msg).
Proof.
  unfold UniformTime_new.
  destruct sampling_interval, sampling_rate, length, duration; cbn;
    first [discriminate | reflexivity].
Qed.

(** Interval, rate and length together, in a unit that does not exist. *)
Lemma UniformTime_new_invalid_specification_witness :
  UniformTime_new (Some 4%Z) None (Some (RateNum 2)) (Some (1 # 2)) 0
                  (Some "fortnight"%string)
  = Raise (ValueError invalid_time_specification_msg).
Proof.
  apply (UniformTime_new_invalid_specification (Some 4%Z) None (Some (RateNum 2))
           (Some (1 # 2)) 0 (Some "fortnight"%string)).
  reflexivity.
Defined.




(** ** TimeArray: conversion to ticks *)





(** An int64 value is taken as ticks at base resolution, whatever the
    unit; the same number as a Python number is scaled by the unit. *)
Example TimeArray_new_int64_is_ticks :
  (t ← TimeArray_new (Int64 5) (Some "s"%string) false; mret (tick t)) = Ok 5%Z /\
  (t ← TimeArray_new (Num 5) (Some "s"%string) false; mret (tick t))
  = Ok 5000000000000%Z.
Proof. split; reflexivity. Qed.

(** ** Frequency: a rate and its period in one unit *)



(** ** The method descriptor: what the constructors leave alone *)

Lemma fresh_loc_unused (h : heap) : h !! fresh_loc h = None.
Proof. unfold fresh_loc, loc. apply not_elem_of_dom. apply (is_fresh (dom h)). Qed.

(** X7: A sampling rate that the caller has put in the dict under ['Fs'] is
    kept: the CoherenceAnalyzer constructor leaves the whole heap as it
    was, and so does the SparseCoherenceAnalyzer constructor on a dict
    that names the method ['mlab']. *)
Theorem analyzer_init_keeps_Fs (h : heap) (l : loc) (m : dict) (fs : pyval)
    (ts : time_series) (ij : list (nat * nat)) (lb : Q) (ub : option Q)
    (speed scale : bool) :
  h !! l = Some m ->
  m !! "Fs"%string = Some fs ->
  CoherenceAnalyzer_init ts (Some l) h
  = (Ok (mkCoherenceAnalyzer (ts_data ts) (ts_sampling_rate ts) (ts_time ts) l), h) /\
  (m !! "this_method"%string = Some (VStr "mlab") ->
   SparseCoherenceAnalyzer_init ts ij (Some l) lb ub speed scale h
   = (Ok (mkSparseCoherenceAnalyzer (ts_data ts) (ts_sampling_rate ts) ij l
            lb ub speed scale), h)).
Proof.
  intros Hl Hfs.
  assert (Hsame : <[l := <["Fs"%string := fs]> m]> h = h).
  { rewrite (insert_id m _ _ Hfs). now apply insert_id. }
  split.
  - unfold CoherenceAnalyzer_init, dict_get, dict_setitem.
    cbv beta iota zeta delta [mbind stM_bind mret stM_ret].
    rewrite Hl. cbv beta iota. rewrite Hfs, Hl. now rewrite Hsame.
  - intros Hm.
    unfold SparseCoherenceAnalyzer_init, dict_getitem, dict_get, dict_setitem, st_raise.
    cbv beta iota zeta delta [mbind stM_bind mret stM_ret].
    rewrite Hl, Hm. cbn [pyval_ne_str String.eqb Ascii.eqb Bool.eqb negb].
    cbv beta iota. rewrite Hl. cbv beta iota. rewrite Hfs, Hl. now rewrite Hsame.
Qed.

(** The caller's dict [{'this_method': 'mlab', 'Fs': 1000}] and a series
    sampled at 2 Hz. *)
Lemma analyzer_init_keeps_Fs_witness :
  let m : dict := <["Fs"%string := VNum 1000]> {[ "this_method"%string := VStr "mlab" ]} in
  let h : heap := {[ 7 := m ]} in
  let ts := mk_time_series (mk_ndarray [2; 2] [1; 2; 3; 4]%Q) (VNum 2) [] in
  CoherenceAnalyzer_init ts (Some 7) h
  = (Ok (mkCoherenceAnalyzer (ts_data ts) (VNum 2) [] 7), h) /\
  SparseCoherenceAnalyzer_init ts [(0, 1)] (Some 7) 0 None false true h
  = (Ok (mkSparseCoherenceAnalyzer (ts_data ts) (VNum 2) [(0, 1)] 7 0 None false true),
     h).
Proof.
  intros m h ts.
  destruct (analyzer_init_keeps_Fs h 7 m (VNum 1000) ts [(0, 1)] 0 None false true
              (lookup_singleton_eq 7 m)
              (lookup_insert_eq _ "Fs"%string (VNum 1000)))
    as [Hc Hs].
  split; [exact Hc|]. apply Hs.
  unfold m. rewrite lookup_insert_ne by discriminate. apply lookup_singleton_eq.
Defined.

(** X8: Without a [method] argument the CoherenceAnalyzer and the
    SparseCoherenceAnalyzer make a dict of their own,
    [{'this_method': 'mlab', 'Fs': sampling_rate}], at a location that no
    dict had; every dict that existed is still what it was. *)
Theorem analyzer_init_default_method (h : heap) (ts : time_series)
    (ij : list (nat * nat)) (lb : Q) (ub : option Q) (speed scale : bool) :
  let d : dict := <["Fs"%string := ts_sampling_rate ts]>
                    {[ "this_method"%string := VStr "mlab" ]} in
  CoherenceAnalyzer_init ts None h
  = (Ok (mkCoherenceAnalyzer (ts_data ts) (ts_sampling_rate ts) (ts_time ts)
           (fresh_loc h)),
     <[fresh_loc h := d]> h) /\
  SparseCoherenceAnalyzer_init ts ij None lb ub speed scale h
  = (Ok (mkSparseCoherenceAnalyzer (ts_data ts) (ts_sampling_rate ts) ij
           (fresh_loc h) lb ub speed scale),
     <[fresh_loc h := d]> h) /\
  h !! fresh_loc h = None /\
  forall l, is_Some (h !! l) -> (<[fresh_loc h := d]> h) !! l = h !! l.
Proof.
  intros d.
  assert (Hnew : forall d0 : dict, <[fresh_loc h := d0]> h !! fresh_loc h = Some d0)
    by (intros; apply lookup_insert_eq).
  split; [|split; [|split]].
  - unfold CoherenceAnalyzer_init, alloc_dict, dict_get, dict_setitem.
    cbv beta iota zeta delta [mbind stM_bind mret stM_ret].
    rewrite Hnew. cbv beta iota.
    rewrite lookup_singleton_ne by discriminate.
    rewrite Hnew. now rewrite insert_insert_eq.
  - unfold SparseCoherenceAnalyzer_init, alloc_dict, dict_getitem, dict_get,
      dict_setitem, st_raise.
    cbv beta iota zeta delta [mbind stM_bind mret stM_ret].
    rewrite Hnew. rewrite lookup_singleton_eq.
    cbn [pyval_ne_str String.eqb Ascii.eqb Bool.eqb negb]. cbv beta iota.
    rewrite Hnew. cbv beta iota.
    rewrite lookup_singleton_ne by discriminate.
    rewrite Hnew. now rewrite insert_insert_eq.
  - apply fresh_loc_unused.
  - intros l [m Hm]. apply lookup_insert_ne. intros <-.
    rewrite fresh_loc_unused in Hm. discriminate.
Qed.

(** X9: The SparseCoherenceAnalyzer constructor refuses a caller's dict that
    names no method, with [KeyError], and one that names a method other
    than ['mlab'], with [ValueError]; in both cases the dict has not been
    touched. *)
Theorem SparseCoherenceAnalyzer_init_unsupported (h : heap) (l : loc) (m : dict)
    (ts : time_series) (ij : list (nat * nat)) (lb : Q) (ub : option Q)
    (speed scale : bool) :
  h !! l = Some m ->
  (m !! "this_method"%string = None ->
   SparseCoherenceAnalyzer_init ts ij (Some l) lb ub speed scale h
   = (Raise (KeyError "this_method"), h)) /\
  (forall v, m !! "this_method"%string = Some v -> pyval_ne_str v "mlab" = true ->
   SparseCoherenceAnalyzer_init ts ij (Some l) lb ub speed scale h
   = (Raise (ValueError sparse_method_msg), h)).
Proof.
  intros Hl. split.
  - intros Hm. unfold SparseCoherenceAnalyzer_init, dict_getitem.
    cbv beta iota zeta delta [mbind stM_bind mret stM_ret].
    now rewrite Hl, Hm.
  - intros v Hm Hv.
    now apply (SparseCoherenceAnalyzer_init_rejects h l m ts ij lb ub speed scale v).
Qed.

(** An empty dict, and a dict that asks for the multi-taper method. *)
Lemma SparseCoherenceAnalyzer_init_unsupported_witness :
  let ts := mk_time_series (mk_ndarray [2; 2] [1; 2; 3; 4]%Q) (VNum 2) [] in
  let mt : dict := {[ "this_method"%string := VStr "multi_taper_csd" ]} in
  SparseCoherenceAnalyzer_init ts [(0, 1)] (Some 3) 0 None false true {[ 3 := ∅ ]}
  = (Raise (KeyError "this_method"), {[ 3 := ∅ ]}) /\
  SparseCoherenceAnalyzer_init ts [(0, 1)] (Some 3) 0 None false true {[ 3 := mt ]}
  = (Raise (ValueError sparse_method_msg), {[ 3 := mt ]}).
Proof.
  intros ts mt. split.
  - apply (SparseCoherenceAnalyzer_init_unsupported {[ 3 := ∅ ]} 3 ∅ ts [(0, 1)] 0
             None false true (lookup_singleton_eq 3 ∅)).
    apply lookup_empty.
  - apply (proj2 (SparseCoherenceAnalyzer_init_unsupported {[ 3 := mt ]} 3 mt ts
                    [(0, 1)] 0 None false true (lookup_singleton_eq 3 mt))
             (VStr "multi_taper_csd")).
    + apply lookup_singleton_eq.
    + reflexivity.
Defined.

(** ** coherence_partial without channels *)

(** An array of shape (0, 4). *)
Lemma coherence_partial_no_channels_witness :
  CoherenceAnalyzer_coherence_partial (0%Z, 0%Z) (fun fxy _ _ _ _ _ => fxy)
    (mkCoherenceAnalyzer (mk_ndarray [0; 4] []) (VNum 1) [] 0) [] 3
  = Ok [].
Proof.
  apply (coherence_partial_no_channels (0%Z, 0%Z) (fun fxy _ _ _ _ _ => fxy)
           (mkCoherenceAnalyzer (mk_ndarray [0; 4] []) (VNum 1) [] 0) [] 3).
  reflexivity.
Defined.

(** ** CorrelationAnalyzer: xcorr and xcorr_norm *)

Section UpperLoops.
Context {A : Type}.
Variables (n F : nat) (g : nat -> nat -> list A).
Variable body : nat -> nat -> list (list (list A)) -> result (list (list (list A))).
Hypothesis Hbody : forall i j T, square T n F -> i <= j -> j < n ->
  exists T', body i j T = Ok T' /\ square T' n F /\
    cell T' i j = Some (g i j) /\
    forall i' j', (i', j') <> (i, j) -> cell T' i' j' = cell T i' j'.

Lemma upper_row_loop (i : nat) (T : list (list (list A))) :
  square T n F -> i < n ->
  exists T', result_foldl (fun T j => body i j T) T (xrange i n) = Ok T' /\
    square T' n F /\
    (forall j, i <= j -> j < n -> cell T' i j = Some (g i j)) /\
    (forall i' j', i' <> i -> cell T' i' j' = cell T i' j').
Proof.
  intros Hsq Hi.
  destruct (result_foldl_inv (fun T j => body i j T) (xrange i n)
              (fun k T' =>
                 square T' n F /\
                 (forall j, i <= j -> j < i + k -> cell T' i j = Some (g i j)) /\
                 (forall i' j', i' <> i -> cell T' i' j' = cell T i' j'))
              T) as (T' & Hrun & Hsq' & Hrow & Hrest).
  - split; [exact Hsq|]. split; [intros; lia|]. reflexivity.
  - intros k j T1 Hk (Hsq1 & Hrow1 & Hrest1).
    pose proof (xrange_lookup _ _ _ _ Hk) as [-> Hlt].
    destruct (Hbody i (i + k) T1 Hsq1 ltac:(lia) Hlt)
      as (T2 & Hstep & Hsq2 & Hnew & Hother).
    exists T2. split; [exact Hstep|]. split; [exact Hsq2|]. split.
    + intros j Hij Hj. destruct (decide (j = i + k)) as [->|Hne]; [exact Hnew|].
      rewrite Hother by congruence. apply Hrow1; lia.
    + intros i' j' Hi'. rewrite Hother by congruence. now apply Hrest1.
  - rewrite xrange_length in Hrow.
    exists T'. split; [exact Hrun|]. split; [exact Hsq'|]. split; [|exact Hrest].
    intros j Hij Hj. apply Hrow; lia.
Qed.

Lemma upper_loops (T : list (list (list A))) :
  square T n F ->
  exists T',
    result_foldl (fun T i => result_foldl (fun T j => body i j T) T (xrange i n))
                 T (xrange 0 n) = Ok T' /\
    square T' n F /\
    forall i j, i <= j -> j < n -> cell T' i j = Some (g i j).
Proof.
  intros Hsq.
  destruct (result_foldl_inv
              (fun T i => result_foldl (fun T j => body i j T) T (xrange i n))
              (xrange 0 n)
              (fun k T' =>
                 square T' n F /\
                 forall i j, i < k -> i <= j -> j < n -> cell T' i j = Some (g i j))
              T) as (T' & Hrun & Hsq' & Hcells).
  - split; [exact Hsq|]. intros; lia.
  - intros k i T1 Hk (Hsq1 & Hcells1).
    pose proof (xrange_lookup _ _ _ _ Hk) as [-> Hlt]. cbn in Hlt.
    destruct (upper_row_loop k T1 Hsq1 Hlt) as (T2 & Hstep & Hsq2 & Hrow & Hrest).
    exists T2. split; [exact Hstep|]. split; [exact Hsq2|].
    intros i j Hi Hij Hj. destruct (decide (i = k)) as [->|Hne]; [now apply Hrow|].
    rewrite Hrest by exact Hne. apply Hcells1; lia.
  - rewrite xrange_length, Nat.sub_0_r in Hcells.
    exists T'. split; [exact Hrun|]. split; [exact Hsq'|].
    intros i j Hij Hj. apply Hcells; lia.
Qed.

(** The loops followed by the mirroring without conjugation. *)
Lemma upper_loops_mirrored (T : list (list (list A))) :
  square T n F ->
  exists X,
    (T1 ← result_foldl (fun T i => result_foldl (fun T j => body i j T) T (xrange i n))
            T (xrange 0 n);
     mirror_lower (fun x => x) n T1) = Ok X /\
    forall i j, i <= j -> j < n ->
      cell X i j = Some (g i j) /\ cell X j i = Some (g i j).
Proof.
  intros Hsq.
  destruct (upper_loops T Hsq) as (T1 & Hrun & Hsq1 & Hcells).
  destruct (mirror_lower_spec (fun x => x) T1 n F Hsq1)
    as (X & Hmirror & _ & Hkeep & Hlow).
  exists X. split; [rewrite Hrun; exact Hmirror|].
  intros i j Hij Hj.
  assert (Hup : cell X i j = Some (g i j))
    by (rewrite Hkeep by exact Hij; now apply Hcells).
  split; [exact Hup|].
  destruct (decide (i = j)) as [->|Hne]; [exact Hup|].
  rewrite Hlow by lia. rewrite map_id.
  unfold cell_or_nil. now rewrite (Hcells i j Hij Hj).
Qed.
End UpperLoops.

Lemma tsu_xcorr_length (x y : list Q) :
  length (tsu_xcorr x y) = length x + length y - 1.
Proof. unfold tsu_xcorr. now rewrite length_map, length_seq. Qed.

(** The channels of a well-formed array of [n] channels by [t] points. *)
Lemma getrow_channel (a : ndarray) (n t i : nat) :
  shape a = [n; t] -> length (flat a) = n * t -> i < n ->
  getrow a i = Ok (channel a t i) /\ length (channel a t i) = t.
Proof.
  intros Hs Hlen Hi. unfold getrow, channel. rewrite Hs.
  destruct (i <? n) eqn:E; [|apply Nat.ltb_ge in E; lia].
  split; [reflexivity|].
  rewrite length_take, length_drop, Hlen. nia.
Qed.

(** X11: [xcorr] holds, for every pair of channels in either order, the full
    cross-correlation of the lower-numbered channel with the
    higher-numbered one: the rows [(i, j)] and [(j, i)] are the same
    (mirrored without conjugation), each of [2 * T - 1] lags. *)
Theorem CorrelationAnalyzer_xcorr_mirrored (self : CorrelationAnalyzer) (n t : nat) :
  shape (cor_data self) = [n; t] ->
  length (flat (cor_data self)) = n * t ->
  0 < t ->
  exists X,
    CorrelationAnalyzer_xcorr self = Ok X /\
    forall i j, i <= j -> j < n ->
      cell X i j = Some (tsu_xcorr (channel (cor_data self) t i)
                                   (channel (cor_data self) t j)) /\
      cell X j i = cell X i j /\
      length (tsu_xcorr (channel (cor_data self) t i)
                        (channel (cor_data self) t j)) = 2 * t - 1.
Proof.
  intros Hs Hlen Ht.
  set (g := fun i j => tsu_xcorr (channel (cor_data self) t i)
                                 (channel (cor_data self) t j)).
  assert (Hg : forall i j, i < n -> j < n -> length (g i j) = t * 2 - 1).
  { intros i j Hi Hj. unfold g. rewrite tsu_xcorr_length.
    rewrite (proj2 (getrow_channel _ n t i Hs Hlen Hi)).
    rewrite (proj2 (getrow_channel _ n t j Hs Hlen Hj)). lia. }
  assert (Hbody : forall i j T, square T n (t * 2 - 1) -> i <= j -> j < n ->
            exists T',
              (xi ← getrow (cor_data self) i;
               xj ← getrow (cor_data self) j;
               setitem2 T i j (tsu_xcorr xi xj)) = Ok T' /\
              square T' n (t * 2 - 1) /\ cell T' i j = Some (g i j) /\
              forall i' j', (i', j') <> (i, j) -> cell T' i' j' = cell T i' j').
  { intros i j T Hsq Hij Hj.
    rewrite (proj1 (getrow_channel _ n t i Hs Hlen ltac:(lia))).
    rewrite (proj1 (getrow_channel _ n t j Hs Hlen Hj)).
    apply (setitem2_square T n (t * 2 - 1) i j (g i j) Hsq); [lia|exact Hj|].
    apply Hg; lia. }
  destruct (upper_loops_mirrored n (t * 2 - 1) g
              (fun i j xcorr =>
                 xi ← getrow (cor_data self) i;
                 xj ← getrow (cor_data self) j;
                 setitem2 xcorr i j (tsu_xcorr xi xj))
              Hbody (zeros3 0%Q n n (t * 2 - 1)) (zeros3_square 0%Q n (t * 2 - 1)))
    as (X & Hrun & Hcells).
  exists X. split.
  - unfold CorrelationAnalyzer_xcorr, shape_first, shape_last. rewrite Hs.
    cbn [last]. cbv beta iota zeta delta [mbind result_bind mret result_ret].
    destruct (t =? 0) eqn:E; [apply Nat.eqb_eq in E; lia|].
    exact Hrun.
  - intros i j Hij Hj. destruct (Hcells i j Hij Hj) as [Hup Hlow].
    split; [exact Hup|]. split; [now rewrite Hup, Hlow|].
    change (length (g i j) = 2 * t - 1). rewrite (Hg i j) by lia. lia.
Qed.

(** Two channels of three points. *)
Lemma CorrelationAnalyzer_xcorr_mirrored_witness :
  let self := mkCorrelationAnalyzer (mk_ndarray [2; 3] [1; 2; 3; 3; 2; 1]%Q)
                (mkTimeArray 1000000000000 "s" 1000000000000) in
  exists X,
    CorrelationAnalyzer_xcorr self = Ok X /\
    cell X 0 1 = Some [1; 4; 10; 12; 9]%Q /\
    cell X 1 0 = cell X 0 1.
Proof.
  intros self.
  destruct (CorrelationAnalyzer_xcorr_mirrored self 2 3 eq_refl eq_refl
              ltac:(lia)) as (X & Hrun & Hcells).
  exists X. split; [exact Hrun|].
  destruct (Hcells 0 1 ltac:(lia) ltac:(lia)) as (Hup & Hlow & _).
  split; [exact Hup|exact Hlow].
Defined.




(** X13: On series of a single time point and at least one channel the index
    [t_points] is beyond the one lag that the cross-correlation has, and
    [xcorr_norm] raises [IndexError]. *)
Theorem CorrelationAnalyzer_xcorr_norm_single_point (self : CorrelationAnalyzer)
    (correlation : list (list Q)) (n : nat) :
  shape (cor_data self) = [n; 1] ->
  length (flat (cor_data self)) = n ->
  0 < n ->
  CorrelationAnalyzer_xcorr_norm self correlation = Raise IndexError.
Proof.
  intros Hs Hlen Hn.
  unfold CorrelationAnalyzer_xcorr_norm, shape_first, shape_last. rewrite Hs.
  cbn [last Nat.eqb]. cbv beta iota zeta delta [mbind result_bind mret result_ret].
  destruct n as [|n]; [lia|].
  change (xrange 0 (S n)) with (0 :: seq 1 n). cbn [result_foldl].
  change (xrange 0 (S n)) with (0 :: seq 1 n). cbn [result_foldl].
  cbv beta iota zeta delta [mbind result_bind mret result_ret].
  assert (Hlen' : length (flat (cor_data self)) = S n * 1) by lia.
  destruct (getrow_channel _ (S n) 1 0 Hs Hlen' ltac:(lia)) as [Hrow Hrowlen].
  rewrite Hrow.
  assert (Hx : length (tsu_xcorr (channel (cor_data self) 1 0)
                                 (channel (cor_data self) 1 0)) = 1 * 2 - 1).
  { rewrite tsu_xcorr_length, Hrowlen. reflexivity. }
  destruct (setitem2_square (zeros3 0%Q (S n) (S n) (1 * 2 - 1)) (S n) (1 * 2 - 1) 0 0
              _ (zeros3_square 0%Q (S n) (1 * 2 - 1)) ltac:(lia) ltac:(lia) Hx)
    as (T1 & Hset & _ & Hnew & _).
  rewrite Hset, (getitem2_cell T1 0 0 _ Hnew).
  unfold getitem1. rewrite lookup_ge_None_2; [reflexivity|].
  rewrite Hx. cbn. lia.
Qed.

(** Two channels of one point. *)
Lemma CorrelationAnalyzer_xcorr_norm_single_point_witness :
  CorrelationAnalyzer_xcorr_norm
    (mkCorrelationAnalyzer (mk_ndarray [2; 1] [5; 7]%Q)
       (mkTimeArray 1000000000000 "s" 1000000000000))
    [[1; 1]; [1; 1]]%Q
  = Raise IndexError.
Proof.
  apply (CorrelationAnalyzer_xcorr_norm_single_point
           (mkCorrelationAnalyzer (mk_ndarray [2; 1] [5; 7]%Q)
              (mkTimeArray 1000000000000 "s" 1000000000000))
           [[1; 1]; [1; 1]]%Q 2).
  - reflexivity.
  - reflexivity.
  - lia.
Defined.

(** ** FilterAnalyzer: which coefficients are zeroed *)

Section Curtail.
Context {C : Type}.
Variable czero : C.

Lemma normalize_index_nat (n k : nat) :
  k < n -> normalize_index n (Z.of_nat k) = Ok k.
Proof.
  intros Hk. unfold normalize_index.
  destruct (0 <=? Z.of_nat k)%Z eqn:E1; [|apply Z.leb_gt in E1; lia].
  destruct (Z.of_nat k <? Z.of_nat n)%Z eqn:E2; [|apply Z.ltb_ge in E2; lia].
  cbn. now rewrite Nat2Z.id.
Qed.

Lemma zero_at_nat (idx : list nat) (row : list C) :
  Forall (fun k => k < length row) idx ->
  zero_at czero (map Z.of_nat idx) row
  = Ok (imap (fun k c => if bool_decide (k ∈ idx) then czero else c) row).
Proof.
  unfold zero_at. revert row. induction idx as [|i idx IH]; intros row Hidx.
  - cbn. f_equal. apply list_eq. intros k. rewrite list_lookup_imap.
    now destruct (row !! k).
  - apply Forall_cons in Hidx. destruct Hidx as [Hi Hidx].
    cbn [map result_foldl]. rewrite (normalize_index_nat _ _ Hi).
    cbv beta iota zeta delta [mbind result_bind mret result_ret].
    rewrite IH.
    2:{ rewrite length_insert. exact Hidx. }
    f_equal. apply list_eq. intros k. rewrite !list_lookup_imap.
    destruct (decide (k = i)) as [->|Hne].
    + rewrite list_lookup_insert_eq by exact Hi.
      destruct (lookup_lt_is_Some_2 row i Hi) as [c Hc]. rewrite Hc. cbn.
      rewrite (bool_decide_eq_true_2 (i ∈ i :: idx)) by apply list_elem_of_here.
      now destruct (bool_decide (i ∈ idx)).
    + rewrite list_lookup_insert_ne by congruence.
      destruct (row !! k); [|reflexivity]. cbn. f_equal.
      rewrite (bool_decide_ext (k ∈ i :: idx) (k ∈ idx)); [reflexivity|].
      rewrite elem_of_cons. tauto.
Qed.

Lemma np_where_elem (cond : Q -> bool) (freqs : list Q) (k : nat) :
  k ∈ List.filter (fun k => match freqs !! k with
                            | Some f => cond f
                            | None => false
                            end) (seq 0 (length freqs))
  <-> exists f, freqs !! k = Some f /\ cond f = true.
Proof.
  rewrite list_elem_of_In, filter_In, in_seq. split.
  - intros [_ H]. destruct (freqs !! k) as [f|]; [|discriminate]. now exists f.
  - intros (f & Hf & Hc). split.
    + apply lookup_lt_Some in Hf. lia.
    + now rewrite Hf.
Qed.

(** Zeroing at the indices that [np.where] finds below [lb] and above
    [ub] is zeroing the out-of-band bins, and nothing else. *)
Lemma zero_at_out_of_band (freqs : list Q) (lb ub : Q) (row : list C) :
  length freqs <= length row ->
  zero_at czero (np_where (fun f => Qlt_bool f lb) freqs
                 ++ np_where (fun f => Qlt_bool ub f) freqs) row
  = Ok (curtailed czero freqs lb ub row).
Proof.
  intros Hlen. unfold np_where. rewrite <- map_app.
  rewrite zero_at_nat.
  2:{ apply Forall_forall. intros k Hk. apply elem_of_app in Hk.
      destruct Hk as [Hk|Hk]; apply np_where_elem in Hk;
        destruct Hk as (f & Hf & _); apply lookup_lt_Some in Hf; lia. }
  f_equal. unfold curtailed. apply imap_ext. intros k c _.
  match goal with |- (if ?b then _ else _) = _ =>
    assert (Hb : b = out_of_band freqs lb ub k); [|now rewrite Hb] end.
  unfold out_of_band.
  destruct (bool_decide _) eqn:E.
  - apply bool_decide_eq_true in E. apply elem_of_app in E.
    destruct E as [E|E]; apply np_where_elem in E; destruct E as (f & -> & ->);
      [reflexivity|symmetry; apply orb_true_r].
  - apply bool_decide_eq_false in E.
    destruct (freqs !! k) as [f|] eqn:Hf; [|reflexivity].
    destruct (Qlt_bool f lb) eqn:E1.
    + destruct E. apply elem_of_app. left. apply np_where_elem. now exists f.
    + destruct (Qlt_bool ub f) eqn:E2; [|reflexivity].
      destruct E. apply elem_of_app. right. apply np_where_elem. now exists f.
Qed.

(** A coefficient beyond the frequency grid is kept. *)
Lemma curtailed_beyond_grid (freqs : list Q) (lb ub : Q) (row : list C) (k : nat) :
  length freqs <= k -> curtailed czero freqs lb ub row !! k = row !! k.
Proof.
  intros Hk. unfold curtailed. rewrite list_lookup_imap.
  destruct (row !! k); [|reflexivity]. cbn. unfold out_of_band.
  now rewrite lookup_ge_None_2 by exact Hk.
Qed.

Lemma curtailed_length (freqs : list Q) (lb ub : Q) (row : list C) :
  length (curtailed czero freqs lb ub row) = length row.
Proof. apply length_imap. Qed.
End Curtail.

(** X14: [filtered_fourier] transforms each row of the data, sets to zero the
    coefficients of the frequency bins below [lb] or above [ub] (the last
    frequency when no [ub] was given), inverts and keeps the real parts.
    Only bins of the grid of non-negative frequencies are zeroed: every
    coefficient from index [len(freqs)] on, where the negative
    frequencies are, goes to the inverse transform as the transform gave
    it. *)
Theorem FilterAnalyzer_filtered_fourier_spec {C : Type} (czero : C)
    (fft : list Q -> list C) (ifft : list C -> list C) (real : C -> Q)
    (self : FilterAnalyzer) (rows : list (list Q)) (ub : Q) :
  rows_of (fa_data self) = Ok rows ->
  fa_ub self = Some ub \/ (fa_ub self = None /\ last (fa_freqs self) = Some ub) ->
  (forall r, r ∈ rows -> length (fa_freqs self) <= length (fft r)) ->
  FilterAnalyzer_filtered_fourier czero fft ifft real self
  = Ok (mk_ndarray (shape (fa_data self))
          (concat (map (fun r => map real
                          (ifft (curtailed czero (fa_freqs self) (fa_lb self) ub (fft r))))
                       rows))) /\
  forall r k, length (fa_freqs self) <= k ->
    curtailed czero (fa_freqs self) (fa_lb self) ub (fft r) !! k = fft r !! k.
Proof.
  intros Hrows Hub Hlen. split; [|intros r k Hk; now apply curtailed_beyond_grid].
  unfold FilterAnalyzer_filtered_fourier.
  assert (Hub' : match fa_ub self with
                 | Some u => Ok u
                 | None => freqs_last (fa_freqs self)
                 end = Ok ub).
  { destruct Hub as [->|[-> Hl]]; [reflexivity|]. unfold freqs_last. now rewrite Hl. }
  rewrite Hub', Hrows.
  cbv beta iota zeta delta [mbind result_bind mret result_ret].
  unfold zero_columns.
  rewrite (result_mapM_Ok _ (curtailed czero (fa_freqs self) (fa_lb self) ub)).
  2:{ intros p Hp. apply list_elem_of_fmap in Hp. destruct Hp as (r & -> & Hr).
      apply zero_at_out_of_band. now apply Hlen. }
  f_equal. f_equal. f_equal. rewrite !map_map. reflexivity.
Qed.

(** Four samples with the frequencies 0, 1/4 and 1/2 and the band
    [0, 1/10], under stub transforms. *)
Lemma FilterAnalyzer_filtered_fourier_spec_witness :
  let self := mkFilterAnalyzer (mk_ndarray [4] [1; 2; 3; 4]%Q) (VNum 1)
                [0; 1 # 4; 1 # 2]%Q (Some (1 # 10)) 0 in
  let fft := map (fun q : Q => (q, 0%Q)) in
  FilterAnalyzer_filtered_fourier (0%Q, 0%Q) fft (fun l => l) fst self
  = Ok (mk_ndarray [4]
          (concat (map (fun r => map fst
                          (curtailed (0%Q, 0%Q) [0; 1 # 4; 1 # 2]%Q 0 (1 # 10) (fft r)))
                       [[1; 2; 3; 4]%Q]))) /\
  forall r k, 3 <= k ->
    curtailed (0%Q, 0%Q) [0; 1 # 4; 1 # 2]%Q 0 (1 # 10) (fft r) !! k = fft r !! k.
Proof.
  intros self fft.
  apply (FilterAnalyzer_filtered_fourier_spec (0%Q, 0%Q) fft (fun l => l) fst self
           [[1; 2; 3; 4]%Q] (1 # 10)).
  - reflexivity.
  - left. reflexivity.
  - intros r Hr. apply list_elem_of_singleton in Hr. subst r. cbn. lia.
Defined.

(** ** TimeArray.index_at and at *)

Lemma foldr_min_spec (x : Z) (l : list Z) :
  (foldr Z.min x l ∈ x :: l) /\ (forall y, y ∈ x :: l -> foldr Z.min x l <= y)%Z.
Proof.
  induction l as [|a l [IHin IHle]]; cbn.
  - split; [apply list_elem_of_here|]. intros y Hy.
    apply list_elem_of_singleton in Hy. lia.
  - split.
    + destruct (Z.min_spec a (foldr Z.min x l)) as [[_ ->]|[_ ->]].
      * apply list_elem_of_further, list_elem_of_here.
      * apply elem_of_cons in IHin. destruct IHin as [->|Hin].
        -- apply list_elem_of_here.
        -- now apply list_elem_of_further, list_elem_of_further.
    + intros y Hy. apply elem_of_cons in Hy. destruct Hy as [->|Hy].
      * specialize (IHle x (list_elem_of_here _ _)). lia.
      * apply elem_of_cons in Hy. destruct Hy as [->|Hy]; [lia|].
        specialize (IHle y (list_elem_of_further _ _ _ Hy)). lia.
Qed.

Lemma np_min_spec (d : list Z) :
  d <> [] ->
  exists m, np_min d = Ok m /\ m ∈ d /\ (forall y, y ∈ d -> m <= y)%Z.
Proof.
  destruct d as [|x l]; [congruence|]. intros _.
  exists (foldr Z.min x l). split; [reflexivity|]. apply foldr_min_spec.
Qed.

Lemma np_where_Z_elem (cond : Z -> bool) (d : list Z) (k : nat) :
  k ∈ np_where_Z cond d <-> exists x, d !! k = Some x /\ cond x = true.
Proof.
  unfold np_where_Z. rewrite list_elem_of_In, filter_In, in_seq. split.
  - intros [_ H]. destruct (d !! k) as [x|]; [|discriminate]. now exists x.
  - intros (x & Hx & Hc). split.
    + apply lookup_lt_Some in Hx. lia.
    + now rewrite Hx.
Qed.

(** Without overflow the distances are the absolute differences. *)
Lemma index_at_distances (l : list Z) (te : Z) :
  (forall x, x ∈ l -> - 2 ^ 63 < x - te < 2 ^ 63)%Z ->
  map (fun x => np_abs64 (wrap64 (x - te))) l = map (fun x => Z.abs (x - te)) l.
Proof.
  intros H. apply map_ext_in. intros x Hx. apply list_elem_of_In in Hx.
  specialize (H x Hx). unfold np_abs64.
  rewrite (wrap64_small (x - te)) by lia. apply wrap64_small. lia.
Qed.

Lemma index_at_nearest_indices (self : TimeArray1d) (t : time_data)
    (t_e : TimeArray) :
  TimeArray_new t (Some (ta1_time_unit self)) false = Ok t_e ->
  ticks self <> [] ->
  (forall x, x ∈ ticks self -> - 2 ^ 63 < x - tick t_e < 2 ^ 63)%Z ->
  exists idx,
    TimeArray_index_at self t None = Ok idx /\
    idx <> [] /\
    forall k, k ∈ idx <->
      exists x, ticks self !! k = Some x /\
        forall y, y ∈ ticks self -> (Z.abs (x - tick t_e) <= Z.abs (y - tick t_e))%Z.
Proof.
  intros Ht Hne Hrange. unfold TimeArray_index_at. rewrite Ht.
  cbv beta iota zeta delta [mbind result_bind mret result_ret].
  rewrite (index_at_distances _ _ Hrange).
  set (d := map (fun x => Z.abs (x - tick t_e)) (ticks self)).
  destruct (np_min_spec d) as (m & Hm & Hin & Hle).
  { unfold d. destruct (ticks self); [congruence|discriminate]. }
  rewrite Hm. eexists. split; [reflexivity|].
  assert (Hd : forall k x, ticks self !! k = Some x ->
                 d !! k = Some (Z.abs (x - tick t_e))).
  { intros k x Hx. unfold d.
    change (map (fun x => Z.abs (x - tick t_e)) (ticks self))
      with ((fun x => Z.abs (x - tick t_e)) <$> ticks self).
    now rewrite list_lookup_fmap, Hx. }
  assert (Hd' : forall k a, d !! k = Some a ->
                  exists x, ticks self !! k = Some x /\ a = Z.abs (x - tick t_e)).
  { intros k a Ha. unfold d in Ha.
    change (map (fun x => Z.abs (x - tick t_e)) (ticks self))
      with ((fun x => Z.abs (x - tick t_e)) <$> ticks self) in Ha.
    rewrite list_lookup_fmap in Ha.
    destruct (ticks self !! k) as [x|]; [|discriminate].
    injection Ha as <-. now exists x. }
  assert (Hchar : forall k, k ∈ np_where_Z (fun x => (x =? m)%Z) d <->
            exists x, ticks self !! k = Some x /\
              forall y, y ∈ ticks self ->
                (Z.abs (x - tick t_e) <= Z.abs (y - tick t_e))%Z).
  { intros k. rewrite np_where_Z_elem. split.
    - intros (a & Ha & Heq). apply Z.eqb_eq in Heq. subst a.
      destruct (Hd' k m Ha) as (x & Hx & Hmx). exists x. split; [exact Hx|].
      intros y Hy. rewrite <- Hmx. apply Hle.
      apply list_elem_of_lookup in Hy. destruct Hy as [k' Hk'].
      apply list_elem_of_lookup. exists k'. now apply Hd.
    - intros (x & Hx & Hmin). exists (Z.abs (x - tick t_e)).
      split; [now apply Hd|]. apply Z.eqb_eq.
      apply list_elem_of_lookup in Hin. destruct Hin as [k' Hk'].
      destruct (Hd' k' m Hk') as (x' & Hx' & ->).
      apply Z.le_antisymm.
      + apply Hmin. apply list_elem_of_lookup. now exists k'.
      + apply Hle. apply list_elem_of_lookup. exists k. now apply Hd. }
  split; [|exact Hchar].
  apply list_elem_of_lookup in Hin. destruct Hin as [k Hk].
  destruct (Hd' k m Hk) as (x & Hx & Hmx).
  assert (Hkin : k ∈ np_where_Z (fun x => (x =? m)%Z) d).
  { apply np_where_Z_elem. exists m. split; [exact Hk|apply Z.eqb_refl]. }
  intros Hnil. rewrite Hnil in Hkin. now apply not_elem_of_nil in Hkin.
Qed.

(** X16: [index_at(t)] returns exactly the indices of the ticks nearest to [t]
    (read in the array's unit): every index whose tick is at the least
    distance from [t], ties included, and no other; on a non-empty array
    there is at least one. *)
Theorem TimeArray_index_at_nearest (self : TimeArray1d) (t : time_data)
    (t_e : TimeArray) :
  TimeArray_new t (Some (ta1_time_unit self)) false = Ok t_e ->
  ticks self <> [] ->
  (forall x, x ∈ ticks self -> - 2 ^ 63 < x - tick t_e < 2 ^ 63)%Z ->
  exists idx,
    TimeArray_index_at self t None = Ok idx /\
    idx <> [] /\
    forall k, k ∈ idx <->
      exists x, ticks self !! k = Some x /\
        forall y, y ∈ ticks self -> (Z.abs (x - tick t_e) <= Z.abs (y - tick t_e))%Z.
Proof. exact (index_at_nearest_indices self t t_e). Qed.

(** The times 1, 2, 3, 3 s; the time 2.6 s is nearest to both 3 s. *)
Lemma TimeArray_index_at_nearest_witness :
  let self := mkTimeArray1d
                [1000000000000; 2000000000000; 3000000000000; 3000000000000]%Z
                "s" 1000000000000 in
  let t_e := mkTimeArray 2600000000000 "s" 1000000000000 in
  exists idx,
    TimeArray_index_at self (Num (26 # 10)) None = Ok idx /\
    idx <> [] /\
    forall k, k ∈ idx <->
      exists x, ticks self !! k = Some x /\
        forall y, y ∈ ticks self -> (Z.abs (x - tick t_e) <= Z.abs (y - tick t_e))%Z.
Proof.
  intros self t_e.
  apply (TimeArray_index_at_nearest self (Num (26 # 10)) t_e).
  - reflexivity.
  - discriminate.
  - intros x Hx. cbn in Hx.
    repeat (apply elem_of_cons in Hx; destruct Hx as [->|Hx]; [cbn; lia|]).
    now apply not_elem_of_nil in Hx.
Defined.

Example TimeArray_index_at_tie :
  TimeArray_index_at
    (mkTimeArray1d [1000000000000; 2000000000000; 3000000000000; 3000000000000]%Z
       "s" 1000000000000)
    (Num (26 # 10)) None
  = Ok [2; 3].
Proof. reflexivity. Qed.

(** X17: With a tolerance, [index_at(t, tol)] returns exactly the indices of
    the ticks no further from [t] than [tol], both read in the array's
    unit; there may be none. *)
Theorem TimeArray_index_at_tolerance (self : TimeArray1d) (t tol : time_data)
    (t_e tol_e : TimeArray) :
  TimeArray_new t (Some (ta1_time_unit self)) false = Ok t_e ->
  TimeArray_new tol (Some (ta1_time_unit self)) false = Ok tol_e ->
  (forall x, x ∈ ticks self -> - 2 ^ 63 < x - tick t_e < 2 ^ 63)%Z ->
  exists idx,
    TimeArray_index_at self t (Some tol) = Ok idx /\
    forall k, k ∈ idx <->
      exists x, ticks self !! k = Some x /\ (Z.abs (x - tick t_e) <= tick tol_e)%Z.
Proof.
  intros Ht Htol Hrange. unfold TimeArray_index_at. rewrite Ht, Htol.
  cbv beta iota zeta delta [mbind result_bind mret result_ret].
  rewrite (index_at_distances _ _ Hrange).
  eexists. split; [reflexivity|].
  intros k. rewrite np_where_Z_elem.
  change (map (fun x => Z.abs (x - tick t_e)) (ticks self))
    with ((fun x => Z.abs (x - tick t_e)) <$> ticks self).
  rewrite list_lookup_fmap. split.
  - intros (a & Ha & Hle). destruct (ticks self !! k) as [x|]; [|discriminate].
    injection Ha as <-. exists x. split; [reflexivity|]. now apply Z.leb_le.
  - intros (x & -> & Hle). eexists. split; [reflexivity|]. now apply Z.leb_le.
Qed.

(** The times 1, 2, 3 s, the time 2.4 s and the tolerance 0.5 s. *)
Lemma TimeArray_index_at_tolerance_witness :
  let self := mkTimeArray1d [1000000000000; 2000000000000; 3000000000000]%Z
                "s" 1000000000000 in
  let t_e := mkTimeArray 2400000000000 "s" 1000000000000 in
  let tol_e := mkTimeArray 500000000000 "s" 1000000000000 in
  exists idx,
    TimeArray_index_at self (Num (24 # 10)) (Some (Num (1 # 2))) = Ok idx /\
    forall k, k ∈ idx <->
      exists x, ticks self !! k = Some x /\ (Z.abs (x - tick t_e) <= tick tol_e)%Z.
Proof.
  intros self t_e tol_e.
  apply (TimeArray_index_at_tolerance self (Num (24 # 10)) (Num (1 # 2)) t_e tol_e).
  - reflexivity.
  - reflexivity.
  - intros x Hx. cbn in Hx.
    repeat (apply elem_of_cons in Hx; destruct Hx as [->|Hx]; [cbn; lia|]).
    now apply not_elem_of_nil in Hx.
Defined.

(** X18: On an empty array [index_at(t)] raises the [ValueError] of the
    minimum of no distances, while [index_at(t, tol)] returns no index. *)
Theorem TimeArray_index_at_empty (u : string) (c : Z) (t tol : time_data)
    (t_e tol_e : TimeArray) :
  TimeArray_new t (Some u) false = Ok t_e ->
  TimeArray_new tol (Some u) false = Ok tol_e ->
  TimeArray_index_at (mkTimeArray1d [] u c) t None = Raise (ValueError zero_size_msg) /\
  TimeArray_index_at (mkTimeArray1d [] u c) t (Some tol) = Ok [].
Proof.
  intros Ht Htol. unfold TimeArray_index_at. cbn [ta1_time_unit ticks map].
  rewrite Ht, Htol. split; reflexivity.
Qed.

Lemma TimeArray_index_at_empty_witness :
  TimeArray_index_at (mkTimeArray1d [] "s" 1000000000000) (Num 2) None
  = Raise (ValueError zero_size_msg) /\
  TimeArray_index_at (mkTimeArray1d [] "s" 1000000000000) (Num 2) (Some (Num 1))
  = Ok [].
Proof.
  apply (TimeArray_index_at_empty "s" 1000000000000 (Num 2) (Num 1)
           (mkTimeArray 2000000000000 "s" 1000000000000)
           (mkTimeArray 1000000000000 "s" 1000000000000)).
  - reflexivity.
  - reflexivity.
Defined.

(** X19: [at(t)] returns the ticks nearest to [t], and only those: every value
    it returns is a tick of the array at the least distance from [t], and
    every such tick is returned; on a non-empty array there is at least
    one. *)
Theorem TimeArray_at_nearest (self : TimeArray1d) (t : time_data) (t_e : TimeArray) :
  TimeArray_new t (Some (ta1_time_unit self)) false = Ok t_e ->
  ticks self <> [] ->
  (forall x, x ∈ ticks self -> - 2 ^ 63 < x - tick t_e < 2 ^ 63)%Z ->
  exists vals,
    TimeArray_at self t None = Ok vals /\
    vals <> [] /\
    forall v, v ∈ vals <->
      v ∈ ticks self /\
      forall y, y ∈ ticks self -> (Z.abs (v - tick t_e) <= Z.abs (y - tick t_e))%Z.
Proof.
  intros Ht Hne Hrange.
  destruct (index_at_nearest_indices self t t_e Ht Hne Hrange)
    as (idx & Hidx & Hnonempty & Hchar).
  unfold TimeArray_at. rewrite Hidx.
  cbv beta iota zeta delta [mbind result_bind mret result_ret].
  rewrite (result_mapM_Ok _ (fun k => default 0%Z (ticks self !! k))).
  2:{ intros k Hk. apply Hchar in Hk. destruct Hk as (x & Hx & _).
      unfold getitem1. now rewrite Hx. }
  eexists. split; [reflexivity|]. split.
  - destruct idx; [congruence|discriminate].
  - intros v. rewrite list_elem_of_In, in_map_iff. split.
    + intros (k & Hv & Hk). apply list_elem_of_In, Hchar in Hk.
      destruct Hk as (x & Hx & Hmin). rewrite Hx in Hv. cbn in Hv. subst v.
      split; [|exact Hmin]. apply list_elem_of_lookup. now exists k.
    + intros [Hv Hmin]. apply list_elem_of_lookup in Hv. destruct Hv as [k Hk].
      exists k. split; [now rewrite Hk|].
      apply list_elem_of_In, Hchar. now exists v.
Qed.

(** The times 1, 2, 3 s and the time 2.4 s. *)
Lemma TimeArray_at_nearest_witness :
  let self := mkTimeArray1d [1000000000000; 2000000000000; 3000000000000]%Z
                "s" 1000000000000 in
  let t_e := mkTimeArray 2400000000000 "s" 1000000000000 in
  exists vals,
    TimeArray_at self (Num (24 # 10)) None = Ok vals /\
    vals <> [] /\
    forall v, v ∈ vals <->
      v ∈ ticks self /\
      forall y, y ∈ ticks self -> (Z.abs (v - tick t_e) <= Z.abs (y - tick t_e))%Z.
Proof.
  intros self t_e.
  apply (TimeArray_at_nearest self (Num (24 # 10)) t_e).
  - reflexivity.
  - discriminate.
  - intros x Hx. cbn in Hx.
    repeat (apply elem_of_cons in Hx; destruct Hx as [->|Hx]; [cbn; lia|]).
    now apply not_elem_of_nil in Hx.
Defined.

Example TimeArray_at_example :
  TimeArray_at (mkTimeArray1d [1000000000000; 2000000000000; 3000000000000]%Z
                  "s" 1000000000000) (Num (24 # 10)) None
  = Ok [2000000000000%Z].
Proof. reflexivity. Qed.

(** ** HilbertAnalyzer: which coefficients are zeroed *)

Lemma result_mapM_fmap_Ok {X Y Z} (f : Y -> result Z) (e : X -> Y) (g : X -> Z)
    (l : list X) :
  (forall x, x ∈ l -> f (e x) = Ok (g x)) ->
  result_mapM f (map e l) = Ok (map g l).
Proof.
  induction l as [|x l IH]; intros H; [reflexivity|].
  cbn. rewrite (H x) by apply list_elem_of_here.
  cbn. rewrite IH; [reflexivity|].
  intros x' Hx'. apply H. now apply list_elem_of_further.
Qed.

Section CurtailMirrored.
Context {C : Type}.
Variable czero : C.

Lemma normalize_index_neg (n k : nat) :
  k < n -> normalize_index n (-1 * Z.of_nat k) = Ok (mirror_bin n k).
Proof.
  intros Hk. unfold normalize_index, mirror_bin.
  destruct k as [|k].
  - cbn [Nat.eqb]. change (-1 * Z.of_nat 0)%Z with 0%Z.
    destruct (0 <=? 0)%Z eqn:E1; [|apply Z.leb_gt in E1; lia].
    destruct (0 <? Z.of_nat n)%Z eqn:E2; [|apply Z.ltb_ge in E2; lia].
    reflexivity.
  - cbn [Nat.eqb].
    destruct (0 <=? -1 * Z.of_nat (S k))%Z eqn:E1; [apply Z.leb_le in E1; lia|].
    cbn [andb].
    destruct (- Z.of_nat n <=? -1 * Z.of_nat (S k))%Z eqn:E2;
      [|apply Z.leb_gt in E2; lia].
    destruct (-1 * Z.of_nat (S k) <? 0)%Z eqn:E3; [|apply Z.ltb_ge in E3; lia].
    cbn [andb]. f_equal. lia.
Qed.

Lemma mirror_bin_lt (n k : nat) : k < n -> mirror_bin n k < n.
Proof. unfold mirror_bin. destruct k; cbn; lia. Qed.

Lemma mirror_bin_involutive (n k : nat) :
  k < n -> mirror_bin n (mirror_bin n k) = k.
Proof.
  intros Hk. unfold mirror_bin. destruct k as [|k]; [reflexivity|].
  cbn [Nat.eqb]. destruct (n - S k =? 0) eqn:E.
  - apply Nat.eqb_eq in E. lia.
  - lia.
Qed.

Lemma zero_at_mirrored (idx : list nat) (row : list C) :
  Forall (fun k => k < length row) idx ->
  zero_at czero (map (fun k => (-1 * k)%Z) (map Z.of_nat idx)) row
  = Ok (imap (fun k c => if bool_decide (k ∈ map (mirror_bin (length row)) idx)
                         then czero else c) row).
Proof.
  unfold zero_at.
  assert (Hgen : forall n (row : list C), length row = n ->
            Forall (fun k => k < n) idx ->
            result_foldl (fun row k => n ← normalize_index (length row) k;
                                       mret (<[n := czero]> row)) row
              (map (fun k => (-1 * k)%Z) (map Z.of_nat idx))
            = Ok (imap (fun k c => if bool_decide (k ∈ map (mirror_bin n) idx)
                                   then czero else c) row)).
  { intros n. induction idx as [|i idx IH]; intros row0 Hn Hidx.
    - cbn. f_equal. apply list_eq. intros k. rewrite list_lookup_imap.
      now destruct (row0 !! k).
    - apply Forall_cons in Hidx. destruct Hidx as [Hi Hidx].
      cbn [map result_foldl]. rewrite Hn, (normalize_index_neg _ _ Hi).
      cbv beta iota zeta delta [mbind result_bind mret result_ret].
      rewrite IH; [|now rewrite length_insert|exact Hidx].
      pose proof (mirror_bin_lt n i Hi) as Hm.
      f_equal. apply list_eq. intros k. rewrite !list_lookup_imap.
      destruct (decide (k = mirror_bin n i)) as [->|Hne].
      + rewrite list_lookup_insert_eq by (rewrite Hn; exact Hm).
        destruct (lookup_lt_is_Some_2 row0 (mirror_bin n i)) as [c Hc];
          [rewrite Hn; exact Hm|].
        rewrite Hc. cbn.
        rewrite (bool_decide_eq_true_2 (mirror_bin n i ∈ mirror_bin n i :: _))
          by apply list_elem_of_here.
        now destruct (bool_decide _).
      + rewrite list_lookup_insert_ne by congruence.
        destruct (row0 !! k); [|reflexivity]. cbn. f_equal.
        rewrite (bool_decide_ext (k ∈ mirror_bin n i :: map (mirror_bin n) idx)
                   (k ∈ map (mirror_bin n) idx)); [reflexivity|].
        rewrite elem_of_cons. tauto. }
  intros Hidx. now apply Hgen.
Qed.

(** After the out-of-band bins are zeroed, zeroing at [-idx_0] zeroes
    their mirror images. *)
Lemma zero_at_neg_out_of_band (freqs : list Q) (lb ub : Q) (row : list C) :
  length freqs <= length row ->
  zero_at czero (map (fun k => (-1 * k)%Z)
                   (np_where (fun f => Qlt_bool f lb) freqs
                    ++ np_where (fun f => Qlt_bool ub f) freqs))
          (curtailed czero freqs lb ub row)
  = Ok (curtailed_mirrored czero freqs lb ub row).
Proof.
  intros Hlen. unfold np_where. rewrite <- map_app.
  set (L := List.filter _ _ ++ List.filter _ _).
  assert (HL : forall k, k ∈ L <-> out_of_band freqs lb ub k = true).
  { intros k. unfold L. rewrite elem_of_app, !np_where_elem. unfold out_of_band.
    split.
    - intros [(f & -> & ->)|(f & -> & ->)]; [reflexivity|apply orb_true_r].
    - destruct (freqs !! k) as [f|]; [|discriminate]. intros H.
      apply orb_true_iff in H. destruct H as [H|H]; [left|right]; now exists f. }
  assert (Hrange : forall k, k ∈ L -> k < length freqs).
  { intros k Hk. apply HL in Hk. unfold out_of_band in Hk.
    destruct (freqs !! k) eqn:E; [|discriminate]. now apply lookup_lt_Some in E. }
  rewrite zero_at_mirrored.
  2:{ apply Forall_forall. intros k Hk. rewrite curtailed_length.
      specialize (Hrange k Hk). lia. }
  f_equal. rewrite curtailed_length. unfold curtailed, curtailed_mirrored.
  apply list_eq. intros k. rewrite !list_lookup_imap.
  destruct (row !! k) as [c|] eqn:Hc; [|reflexivity]. cbn. f_equal.
  assert (Hk : k < length row) by (now apply lookup_lt_Some in Hc).
  assert (Hm : bool_decide (k ∈ map (mirror_bin (length row)) L)
               = out_of_band freqs lb ub (mirror_bin (length row) k)).
  { destruct (out_of_band freqs lb ub (mirror_bin (length row) k)) eqn:E.
    - apply bool_decide_eq_true. apply HL in E.
      apply list_elem_of_In, in_map_iff. exists (mirror_bin (length row) k).
      split; [now apply mirror_bin_involutive|now apply list_elem_of_In].
    - apply bool_decide_eq_false. intros Hin.
      apply list_elem_of_In, in_map_iff in Hin. destruct Hin as (j & Hj & HjL).
      apply list_elem_of_In in HjL.
      assert (Hjlt : j < length row) by (specialize (Hrange j HjL); lia).
      rewrite <- Hj, (mirror_bin_involutive _ _ Hjlt) in E.
      apply HL in HjL. congruence. }
  rewrite Hm.
  destruct (out_of_band freqs lb ub k), (out_of_band freqs lb ub _); reflexivity.
Qed.
End CurtailMirrored.

(** X15: The HilbertAnalyzer constructor transforms each row of the data, sets
    to zero the coefficients of the frequency bins below [lb] or above
    [ub] (the last frequency when no [ub] is given) together with their
    mirror images at the negative frequencies, the bin [n - k] for the bin
    [k >= 1], inverts and keeps the real parts as its data. *)
Theorem HilbertAnalyzer_init_spec {C : Type} (czero : C)
    (fft : list Q -> list C) (ifft : list C -> list C) (real : C -> Q)
    (get_freqs : pyval -> nat -> list Q)
    (ts : time_series) (lb : Q) (ub_arg : option Q)
    (n : nat) (rows : list (list Q)) (ub : Q) :
  shape_last (ts_data ts) = Ok n ->
  rows_of (ts_data ts) = Ok rows ->
  ub_arg = Some ub \/
    (ub_arg = None /\ last (get_freqs (ts_sampling_rate ts) n) = Some ub) ->
  (forall r, r ∈ rows -> length (get_freqs (ts_sampling_rate ts) n) <= length (fft r)) ->
  HilbertAnalyzer_init czero fft ifft real get_freqs ts lb ub_arg
  = Ok (mk_ndarray (shape (ts_data ts))
          (concat (map (fun r => map real
                          (ifft (curtailed_mirrored czero
                                   (get_freqs (ts_sampling_rate ts) n) lb ub (fft r))))
                       rows))).
Proof.
  intros Hn Hrows Hub Hlen. unfold HilbertAnalyzer_init. rewrite Hn.
  cbv beta iota zeta delta [mbind result_bind mret result_ret].
  set (freqs := get_freqs (ts_sampling_rate ts) n) in *.
  assert (Hub' : match ub_arg with
                 | Some u => Ok u
                 | None => freqs_last freqs
                 end = Ok ub).
  { destruct Hub as [->|[-> Hl]]; [reflexivity|]. unfold freqs_last. now rewrite Hl. }
  rewrite Hub', Hrows. unfold zero_columns.
  rewrite (result_mapM_Ok _ (curtailed czero freqs lb ub)).
  2:{ intros p Hp. apply list_elem_of_fmap in Hp. destruct Hp as (r & -> & Hr).
      apply zero_at_out_of_band. now apply Hlen. }
  cbv beta iota. rewrite map_map.
  rewrite (result_mapM_fmap_Ok _ _
             (fun r => curtailed_mirrored czero freqs lb ub (fft r))).
  2:{ intros r Hr. apply zero_at_neg_out_of_band. now apply Hlen. }
  f_equal. f_equal. f_equal. rewrite !map_map. reflexivity.
Qed.

(** Four samples with the frequencies 0, 1/4 and 1/2 and the band
    [0, 1/10], under stub transforms: only coefficient 0 is kept. *)
Lemma HilbertAnalyzer_init_spec_witness :
  let ts := mk_time_series (mk_ndarray [4] [1; 2; 3; 4]%Q) (VNum 1) [] in
  let fft := map (fun q : Q => (q, 0%Q)) in
  let get_freqs := fun (_ : pyval) (_ : nat) => [0; 1 # 4; 1 # 2]%Q in
  HilbertAnalyzer_init (0%Q, 0%Q) fft (fun l => l) fst get_freqs ts 0 (Some (1 # 10))
  = Ok (mk_ndarray [4]
          (concat (map (fun r => map fst
                          (curtailed_mirrored (0%Q, 0%Q) [0; 1 # 4; 1 # 2]%Q 0 (1 # 10)
                             (fft r)))
                       [[1; 2; 3; 4]%Q]))).
Proof.
  intros ts fft get_freqs.
  apply (HilbertAnalyzer_init_spec (0%Q, 0%Q) fft (fun l => l) fst get_freqs ts 0
           (Some (1 # 10)) 4 [[1; 2; 3; 4]%Q] (1 # 10)).
  - reflexivity.
  - reflexivity.
  - left. reflexivity.
  - intros r Hr. apply list_elem_of_singleton in Hr. subst r. cbn. lia.
Defined.

